(** * forge-cohort-platform: the contracts API over its relational store

    A shallow embedding of [apps/api/src/routes/contracts.ts] (the Express
    router of the contracts API) and of the schema created by
    [prisma/migrations/20250826131926_init/migration.sql].

    - Each SQL table is a list of rows in storage order; a row is a record
      with the table's columns.
    - The foreign keys of the migration are listed with their referential
      actions, and [sql_delete] gives the meaning of [DELETE ... WHERE id = x]
      under them.
    - Each Prisma client call of the router is a function from the store to
      either an error or a result and a new store.
    - Each route handler maps the outcome of its Prisma call to an HTTP
      response, the way its [try]/[catch] does. *)

From Stdlib Require Import String List ZArith Bool Lia Sorting.Sorted.
Import ListNotations.

Local Open Scope string_scope.

(** ** Rows of the tables *)

(** Timestamps ([DATETIME]) are milliseconds as integers. *)
Definition DateTime := Z.

Module User.
Record t := mk {
  id : string;
  email : string;
  name : option string;
  role : string;
  createdAt : DateTime;
  updatedAt : DateTime
}.
End User.

Module Cohort.
Record t := mk {
  id : string;
  name : string;
  description : option string;
  createdAt : DateTime;
  updatedAt : DateTime
}.
End Cohort.

Module Contract.
Record t := mk {
  id : string;
  title : string;
  cohortId : string;
  createdAt : DateTime;
  updatedAt : DateTime
}.
End Contract.

Module Clause.
Record t := mk {
  id : string;
  title : string;
  content : string;
  contractId : string;
  userId : string;
  createdAt : DateTime;
  updatedAt : DateTime
}.
End Clause.

Module Amendment.
Record t := mk {
  id : string;
  content : string;
  userId : string;
  clauseId : string;
  status : string;
  createdAt : DateTime;
  updatedAt : DateTime
}.
End Amendment.

Module TensionMeasurement.
Record t := mk {
  id : string;
  value : Z;
  context : option string;
  contractId : string;
  userId : string;
  createdAt : DateTime
}.
End TensionMeasurement.

Module JournalEntry.
Record t := mk {
  id : string;
  title : string;
  content : string;
  contractId : string;
  userId : string;
  tags : string;
  createdAt : DateTime;
  updatedAt : DateTime
}.
End JournalEntry.

Module FailureEntry.
Record t := mk {
  id : string;
  title : string;
  description : string;
  lessons : string;
  contractId : string;
  userId : string;
  createdAt : DateTime;
  updatedAt : DateTime
}.
End FailureEntry.

Module Iteration.
Record t := mk {
  id : string;
  description : string;
  outcome : string;
  failureEntryId : string;
  createdAt : DateTime;
  updatedAt : DateTime
}.
End Iteration.

(** A row of the join table [_CohortMembers]: column [A] is a cohort id,
    column [B] a user id. *)
Module CohortMember.
Record t := mk {
  A : string;
  B : string
}.
End CohortMember.

(** ** The store: one list of rows per table *)

Record Store := mkStore {
  users : list User.t;
  cohorts : list Cohort.t;
  contracts : list Contract.t;
  clauses : list Clause.t;
  amendments : list Amendment.t;
  tension_measurements : list TensionMeasurement.t;
  journal_entries : list JournalEntry.t;
  failure_entries : list FailureEntry.t;
  iterations : list Iteration.t;
  CohortMembers : list CohortMember.t
}.

Definition set_users (s : Store) (l : list User.t) : Store :=
  mkStore l (cohorts s) (contracts s) (clauses s) (amendments s)
    (tension_measurements s) (journal_entries s) (failure_entries s)
    (iterations s) (CohortMembers s).

Definition set_cohorts (s : Store) (l : list Cohort.t) : Store :=
  mkStore (users s) l (contracts s) (clauses s) (amendments s)
    (tension_measurements s) (journal_entries s) (failure_entries s)
    (iterations s) (CohortMembers s).

Definition set_contracts (s : Store) (l : list Contract.t) : Store :=
  mkStore (users s) (cohorts s) l (clauses s) (amendments s)
    (tension_measurements s) (journal_entries s) (failure_entries s)
    (iterations s) (CohortMembers s).

Definition set_clauses (s : Store) (l : list Clause.t) : Store :=
  mkStore (users s) (cohorts s) (contracts s) l (amendments s)
    (tension_measurements s) (journal_entries s) (failure_entries s)
    (iterations s) (CohortMembers s).

Definition set_amendments (s : Store) (l : list Amendment.t) : Store :=
  mkStore (users s) (cohorts s) (contracts s) (clauses s) l
    (tension_measurements s) (journal_entries s) (failure_entries s)
    (iterations s) (CohortMembers s).

Definition set_tension_measurements (s : Store)
    (l : list TensionMeasurement.t) : Store :=
  mkStore (users s) (cohorts s) (contracts s) (clauses s) (amendments s)
    l (journal_entries s) (failure_entries s)
    (iterations s) (CohortMembers s).

Definition set_journal_entries (s : Store) (l : list JournalEntry.t) : Store :=
  mkStore (users s) (cohorts s) (contracts s) (clauses s) (amendments s)
    (tension_measurements s) l (failure_entries s)
    (iterations s) (CohortMembers s).

Definition set_failure_entries (s : Store) (l : list FailureEntry.t) : Store :=
  mkStore (users s) (cohorts s) (contracts s) (clauses s) (amendments s)
    (tension_measurements s) (journal_entries s) l
    (iterations s) (CohortMembers s).

Definition set_iterations (s : Store) (l : list Iteration.t) : Store :=
  mkStore (users s) (cohorts s) (contracts s) (clauses s) (amendments s)
    (tension_measurements s) (journal_entries s) (failure_entries s)
    l (CohortMembers s).

Definition set_CohortMembers (s : Store) (l : list CohortMember.t) : Store :=
  mkStore (users s) (cohorts s) (contracts s) (clauses s) (amendments s)
    (tension_measurements s) (journal_entries s) (failure_entries s)
    (iterations s) l.

Definition empty_store : Store :=
  mkStore [] [] [] [] [] [] [] [] [] [].

(** ** The schema of the migration: foreign keys and defaults *)

Inductive Table :=
| tbl_users
| tbl_cohorts
| tbl_contracts
| tbl_clauses
| tbl_amendments
| tbl_tension_measurements
| tbl_journal_entries
| tbl_failure_entries
| tbl_iterations
| tbl_CohortMembers.

Definition Table_eqb (a b : Table) : bool :=
  match a, b with
  | tbl_users, tbl_users
  | tbl_cohorts, tbl_cohorts
  | tbl_contracts, tbl_contracts
  | tbl_clauses, tbl_clauses
  | tbl_amendments, tbl_amendments
  | tbl_tension_measurements, tbl_tension_measurements
  | tbl_journal_entries, tbl_journal_entries
  | tbl_failure_entries, tbl_failure_entries
  | tbl_iterations, tbl_iterations
  | tbl_CohortMembers, tbl_CohortMembers => true
  | _, _ => false
  end.

(** [ON DELETE] / [ON UPDATE] actions that occur in the migration. *)
Inductive ReferentialAction := RESTRICT | CASCADE.

Definition is_restrict (a : ReferentialAction) : bool :=
  match a with RESTRICT => true | CASCADE => false end.

Definition is_cascade (a : ReferentialAction) : bool :=
  match a with RESTRICT => false | CASCADE => true end.

(** The [CONSTRAINT ... FOREIGN KEY] clauses, under their SQL names. *)
Inductive ForeignKey :=
| contracts_cohortId_fkey
| clauses_contractId_fkey
| clauses_userId_fkey
| amendments_userId_fkey
| amendments_clauseId_fkey
| tension_measurements_contractId_fkey
| tension_measurements_userId_fkey
| journal_entries_contractId_fkey
| journal_entries_userId_fkey
| failure_entries_contractId_fkey
| failure_entries_userId_fkey
| iterations_failureEntryId_fkey
| _CohortMembers_A_fkey
| _CohortMembers_B_fkey.

Definition foreign_keys : list ForeignKey :=
  [ contracts_cohortId_fkey;
    clauses_contractId_fkey; clauses_userId_fkey;
    amendments_userId_fkey; amendments_clauseId_fkey;
    tension_measurements_contractId_fkey; tension_measurements_userId_fkey;
    journal_entries_contractId_fkey; journal_entries_userId_fkey;
    failure_entries_contractId_fkey; failure_entries_userId_fkey;
    iterations_failureEntryId_fkey;
    _CohortMembers_A_fkey; _CohortMembers_B_fkey ].

(** The table that carries the constraint. *)
Definition fk_table (k : ForeignKey) : Table :=
  match k with
  | contracts_cohortId_fkey => tbl_contracts
  | clauses_contractId_fkey | clauses_userId_fkey => tbl_clauses
  | amendments_userId_fkey | amendments_clauseId_fkey => tbl_amendments
  | tension_measurements_contractId_fkey
  | tension_measurements_userId_fkey => tbl_tension_measurements
  | journal_entries_contractId_fkey
  | journal_entries_userId_fkey => tbl_journal_entries
  | failure_entries_contractId_fkey
  | failure_entries_userId_fkey => tbl_failure_entries
  | iterations_failureEntryId_fkey => tbl_iterations
  | _CohortMembers_A_fkey | _CohortMembers_B_fkey => tbl_CohortMembers
  end.

(** [REFERENCES t ("id")]: the table whose primary key is referenced. *)
Definition fk_references (k : ForeignKey) : Table :=
  match k with
  | contracts_cohortId_fkey => tbl_cohorts
  | clauses_contractId_fkey => tbl_contracts
  | clauses_userId_fkey => tbl_users
  | amendments_userId_fkey => tbl_users
  | amendments_clauseId_fkey => tbl_clauses
  | tension_measurements_contractId_fkey => tbl_contracts
  | tension_measurements_userId_fkey => tbl_users
  | journal_entries_contractId_fkey => tbl_contracts
  | journal_entries_userId_fkey => tbl_users
  | failure_entries_contractId_fkey => tbl_contracts
  | failure_entries_userId_fkey => tbl_users
  | iterations_failureEntryId_fkey => tbl_failure_entries
  | _CohortMembers_A_fkey => tbl_cohorts
  | _CohortMembers_B_fkey => tbl_users
  end.

Definition fk_on_delete (k : ForeignKey) : ReferentialAction :=
  match k with
  | _CohortMembers_A_fkey | _CohortMembers_B_fkey => CASCADE
  | _ => RESTRICT
  end.

Definition fk_on_update (k : ForeignKey) : ReferentialAction := CASCADE.

(** [DEFAULT] clauses of the columns that have a literal default. *)
Definition users_role_default : string := "PARTICIPANT".
Definition amendments_status_default : string := "PENDING".

(** ** SQL rows and referential actions on the store *)

Definition has_id {R : Type} (rid : R -> string) (x : string) (l : list R)
  : bool :=
  existsb (fun r => String.eqb (rid r) x) l.

Definition find_id {R : Type} (rid : R -> string) (x : string) (l : list R)
  : option R :=
  find (fun r => String.eqb (rid r) x) l.

Definition remove_id {R : Type} (rid : R -> string) (x : string) (l : list R)
  : list R :=
  filter (fun r => negb (String.eqb (rid r) x)) l.

(** The values held by the constrained column, row by row. *)
Definition fk_values (s : Store) (k : ForeignKey) : list string :=
  match k with
  | contracts_cohortId_fkey => map Contract.cohortId (contracts s)
  | clauses_contractId_fkey => map Clause.contractId (clauses s)
  | clauses_userId_fkey => map Clause.userId (clauses s)
  | amendments_userId_fkey => map Amendment.userId (amendments s)
  | amendments_clauseId_fkey => map Amendment.clauseId (amendments s)
  | tension_measurements_contractId_fkey =>
      map TensionMeasurement.contractId (tension_measurements s)
  | tension_measurements_userId_fkey =>
      map TensionMeasurement.userId (tension_measurements s)
  | journal_entries_contractId_fkey =>
      map JournalEntry.contractId (journal_entries s)
  | journal_entries_userId_fkey => map JournalEntry.userId (journal_entries s)
  | failure_entries_contractId_fkey =>
      map FailureEntry.contractId (failure_entries s)
  | failure_entries_userId_fkey => map FailureEntry.userId (failure_entries s)
  | iterations_failureEntryId_fkey =>
      map Iteration.failureEntryId (iterations s)
  | _CohortMembers_A_fkey => map CohortMember.A (CohortMembers s)
  | _CohortMembers_B_fkey => map CohortMember.B (CohortMembers s)
  end.

(** Some row of the constrained table refers to [x] through [k]. *)
Definition referenced (s : Store) (k : ForeignKey) (x : string) : bool :=
  existsb (String.eqb x) (fk_values s k).

(** The primary keys present in a table. [_CohortMembers] has no [id]. *)
Definition table_ids (s : Store) (t : Table) : list string :=
  match t with
  | tbl_users => map User.id (users s)
  | tbl_cohorts => map Cohort.id (cohorts s)
  | tbl_contracts => map Contract.id (contracts s)
  | tbl_clauses => map Clause.id (clauses s)
  | tbl_amendments => map Amendment.id (amendments s)
  | tbl_tension_measurements =>
      map TensionMeasurement.id (tension_measurements s)
  | tbl_journal_entries => map JournalEntry.id (journal_entries s)
  | tbl_failure_entries => map FailureEntry.id (failure_entries s)
  | tbl_iterations => map Iteration.id (iterations s)
  | tbl_CohortMembers => []
  end.

Definition row_exists (s : Store) (t : Table) (x : string) : bool :=
  existsb (String.eqb x) (table_ids s t).

(** Remove the row with primary key [x] from table [t]. *)
Definition remove_row (t : Table) (x : string) (s : Store) : Store :=
  match t with
  | tbl_users => set_users s (remove_id User.id x (users s))
  | tbl_cohorts => set_cohorts s (remove_id Cohort.id x (cohorts s))
  | tbl_contracts => set_contracts s (remove_id Contract.id x (contracts s))
  | tbl_clauses => set_clauses s (remove_id Clause.id x (clauses s))
  | tbl_amendments =>
      set_amendments s (remove_id Amendment.id x (amendments s))
  | tbl_tension_measurements =>
      set_tension_measurements s
        (remove_id TensionMeasurement.id x (tension_measurements s))
  | tbl_journal_entries =>
      set_journal_entries s (remove_id JournalEntry.id x (journal_entries s))
  | tbl_failure_entries =>
      set_failure_entries s (remove_id FailureEntry.id x (failure_entries s))
  | tbl_iterations =>
      set_iterations s (remove_id Iteration.id x (iterations s))
  | tbl_CohortMembers => s
  end.

(** Remove the rows that refer to [x] through [k]: what [ON DELETE CASCADE]
    does to the constrained table. *)
Definition remove_referencing (k : ForeignKey) (x : string) (s : Store)
  : Store :=
  match k with
  | contracts_cohortId_fkey =>
      set_contracts s (remove_id Contract.cohortId x (contracts s))
  | clauses_contractId_fkey =>
      set_clauses s (remove_id Clause.contractId x (clauses s))
  | clauses_userId_fkey =>
      set_clauses s (remove_id Clause.userId x (clauses s))
  | amendments_userId_fkey =>
      set_amendments s (remove_id Amendment.userId x (amendments s))
  | amendments_clauseId_fkey =>
      set_amendments s (remove_id Amendment.clauseId x (amendments s))
  | tension_measurements_contractId_fkey =>
      set_tension_measurements s
        (remove_id TensionMeasurement.contractId x (tension_measurements s))
  | tension_measurements_userId_fkey =>
      set_tension_measurements s
        (remove_id TensionMeasurement.userId x (tension_measurements s))
  | journal_entries_contractId_fkey =>
      set_journal_entries s
        (remove_id JournalEntry.contractId x (journal_entries s))
  | journal_entries_userId_fkey =>
      set_journal_entries s
        (remove_id JournalEntry.userId x (journal_entries s))
  | failure_entries_contractId_fkey =>
      set_failure_entries s
        (remove_id FailureEntry.contractId x (failure_entries s))
  | failure_entries_userId_fkey =>
      set_failure_entries s
        (remove_id FailureEntry.userId x (failure_entries s))
  | iterations_failureEntryId_fkey =>
      set_iterations s (remove_id Iteration.failureEntryId x (iterations s))
  | _CohortMembers_A_fkey =>
      set_CohortMembers s (remove_id CohortMember.A x (CohortMembers s))
  | _CohortMembers_B_fkey =>
      set_CohortMembers s (remove_id CohortMember.B x (CohortMembers s))
  end.

Inductive SqlError :=
| FOREIGN_KEY_constraint_failed
| UNIQUE_constraint_failed.

Inductive result (E A : Type) :=
| Ok (a : A)
| Err (e : E).
Arguments Ok {E A} a.
Arguments Err {E A} e.

(** The foreign keys that refer to table [t] with action [RESTRICT] block the
    delete while a row refers to [x]. *)
Definition restricts (s : Store) (t : Table) (x : string) (k : ForeignKey)
  : bool :=
  Table_eqb (fk_references k) t && is_restrict (fk_on_delete k)
  && referenced s k x.

(** The foreign keys that refer to table [t] with action [CASCADE] take their
    referring rows along. *)
Definition cascade (t : Table) (x : string) (s : Store) (k : ForeignKey)
  : Store :=
  if Table_eqb (fk_references k) t && is_cascade (fk_on_delete k)
  then remove_referencing k x s
  else s.

(** [DELETE FROM t WHERE id = x]. The result carries the number of rows
    deleted from [t]. Cascading stops after one level: the only table with
    cascading keys is [_CohortMembers], to which no key refers. *)
Definition sql_delete (t : Table) (x : string) (s : Store)
  : result SqlError (nat * Store) :=
  if negb (row_exists s t x) then Ok (0, s)
  else if existsb (restricts s t x) foreign_keys
  then Err FOREIGN_KEY_constraint_failed
  else Ok (1, remove_row t x (fold_left (cascade t x) foreign_keys s)).

(** ** JSON values sent by the router *)

Module Json.
(** [select: { id: true, name: true, email: true }] on a user. *)
Record UserSummary := mkUserSummary {
  id : string;
  name : option string;
  email : string
}.

(** An amendment row, with [proposedBy] when the query includes it. *)
Record Amendment := mkAmendment {
  amendment : Amendment.t;
  proposedBy : option UserSummary
}.

(** A clause row, with [amendments] when the query includes them, and
    [createdBy]. *)
Record Clause := mkClause {
  clause : Clause.t;
  amendments : option (list Amendment);
  createdBy : UserSummary
}.

(** A cohort row, with [members] when the query includes them. *)
Record Cohort := mkCohort {
  cohort : Cohort.t;
  members : option (list UserSummary)
}.

Record Contract := mkContract {
  contract : Contract.t;
  clauses : list Clause;
  cohort_of : Cohort
}.
End Json.

Inductive Body :=
| json_error (error : string)
| json_contracts (l : list Json.Contract)
| json_contract (c : Json.Contract)
| json_clause (c : Json.Clause)
| json_amendment (a : Json.Amendment)
| no_body.

Record Response := mkResponse {
  status : nat;
  body : Body
}.

(** ** Request bodies

    The bodies are those whose fields, when present, have the type the
    handler expects: strings, and for [clauses] an array of objects. A field
    that is absent ([undefined] after the destructuring) is [None]. *)

Module Req.
Record ClauseInput := mkClauseInput {
  ci_title : option string;
  ci_content : option string;
  ci_userId : option string
}.

Record PostContract := mkPostContract {
  pc_title : option string;
  pc_cohortId : option string;
  pc_clauses : option (list ClauseInput)
}.

Record PutContract := mkPutContract {
  put_title : option string
}.

Record PostClause := mkPostClause {
  title : option string;
  content : option string;
  userId : option string
}.

Record PostAmend := mkPostAmend {
  clauseId : option string;
  am_content : option string;
  am_userId : option string
}.
End Req.

(** What a request takes from outside the store: the clock read by [now()]
    and the identifiers drawn by [cuid()], in the order they are drawn. *)
Record Env := mkEnv {
  now : DateTime;
  cuid : nat -> string
}.

(** ** The Prisma client calls of the router *)

Inductive PrismaError :=
| PrismaClientValidationError
| P2002_unique_constraint_failed
| P2003_foreign_key_constraint_failed
| P2025_record_not_found
| inconsistent_query_result.

Definition bind {E A B : Type} (m : result E A) (f : A -> result E B)
  : result E B :=
  match m with
  | Ok a => f a
  | Err e => Err e
  end.

Notation "x <- m ;; k" := (bind m (fun x => k))
  (at level 61, m at next level, right associativity).
Notation "' p <- m ;; k" := (bind m (fun x => let p := x in k))
  (at level 61, p pattern, m at next level, right associativity).

Fixpoint mapM {E A B : Type} (f : A -> result E B) (l : list A)
  : result E (list B) :=
  match l with
  | [] => Ok []
  | a :: l' => b <- f a ;; bs <- mapM f l' ;; Ok (b :: bs)
  end.

(** A required argument that is [undefined] is refused before any query. *)
Definition required {A : Type} (o : option A) : result PrismaError A :=
  match o with
  | Some a => Ok a
  | None => Err PrismaClientValidationError
  end.

(** [connect: { id: x }]: the record to connect must exist. *)
Definition connect {R : Type} (rid : R -> string) (x : string) (l : list R)
  : result PrismaError R :=
  match find_id rid x l with
  | Some r => Ok r
  | None => Err P2025_record_not_found
  end.

(** A new row's primary key must not be taken. *)
Definition fresh {R : Type} (rid : R -> string) (x : string) (l : list R)
  : result PrismaError unit :=
  if has_id rid x l then Err P2002_unique_constraint_failed else Ok tt.

Definition select_user (u : User.t) : Json.UserSummary :=
  Json.mkUserSummary (User.id u) (User.name u) (User.email u).

(** Loading a required relation: the related row is expected to be there. *)
Definition related {R : Type} (rid : R -> string) (x : string) (l : list R)
  : result PrismaError R :=
  match find_id rid x l with
  | Some r => Ok r
  | None => Err inconsistent_query_result
  end.

Definition include_user (s : Store) (x : string)
  : result PrismaError Json.UserSummary :=
  u <- related User.id x (users s) ;; Ok (select_user u).

(** The amendments of a clause, in the order the table holds them: the
    queries of the router give no [orderBy]. *)
Definition amendments_of (s : Store) (clauseId : string)
  : list Amendment.t :=
  filter (fun a => String.eqb (Amendment.clauseId a) clauseId) (amendments s).

Definition clauses_of (s : Store) (contractId : string) : list Clause.t :=
  filter (fun c => String.eqb (Clause.contractId c) contractId) (clauses s).

(** The users that a row of [_CohortMembers] links to a cohort. The query
    gives no [orderBy] for them: the order of this list stands for no order
    of the answer, and the properties below speak of membership only. *)
Definition members_of (s : Store) (cohortId : string) : list User.t :=
  filter
    (fun u =>
       existsb
         (fun m => String.eqb (CohortMember.A m) cohortId
                   && String.eqb (CohortMember.B m) (User.id u))
         (CohortMembers s))
    (users s).

(** [amendments: true] *)
Definition amendment_plain (a : Amendment.t) : Json.Amendment :=
  Json.mkAmendment a None.

(** [amendments: { include: { proposedBy: { select: ... } } }] *)
Definition amendment_with_proposedBy (s : Store) (a : Amendment.t)
  : result PrismaError Json.Amendment :=
  u <- include_user s (Amendment.userId a) ;;
  Ok (Json.mkAmendment a (Some u)).

(** The three shapes in which the router includes clauses. *)
Inductive ClauseInclude :=
| createdBy_only
| amendments_true
| amendments_with_proposedBy.

Definition include_clause (i : ClauseInclude) (s : Store) (c : Clause.t)
  : result PrismaError Json.Clause :=
  u <- include_user s (Clause.userId c) ;;
  match i with
  | createdBy_only => Ok (Json.mkClause c None u)
  | amendments_true =>
      Ok (Json.mkClause c
            (Some (map amendment_plain (amendments_of s (Clause.id c)))) u)
  | amendments_with_proposedBy =>
      l <- mapM (amendment_with_proposedBy s) (amendments_of s (Clause.id c)) ;;
      Ok (Json.mkClause c (Some l) u)
  end.

(** [cohort: true] or [cohort: { include: { members: { select: ... } } }] *)
Definition include_cohort (with_members : bool) (s : Store) (x : string)
  : result PrismaError Json.Cohort :=
  k <- related Cohort.id x (cohorts s) ;;
  Ok (Json.mkCohort k
        (if with_members
         then Some (map select_user (members_of s (Cohort.id k)))
         else None)).

Definition include_contract (i : ClauseInclude) (with_members : bool)
    (s : Store) (c : Contract.t) : result PrismaError Json.Contract :=
  cl <- mapM (include_clause i s) (clauses_of s (Contract.id c)) ;;
  k <- include_cohort with_members s (Contract.cohortId c) ;;
  Ok (Json.mkContract c cl k).

(** [prisma.contract.findMany] of [GET /] *)
Definition prisma_contract_findMany (s : Store)
  : result PrismaError (list Json.Contract) :=
  mapM (include_contract amendments_true false s) (contracts s).

(** [prisma.contract.findUnique] of [GET /:id] *)
Definition prisma_contract_findUnique (x : string) (s : Store)
  : result PrismaError (option Json.Contract) :=
  match find_id Contract.id x (contracts s) with
  | None => Ok None
  | Some c =>
      j <- include_contract amendments_with_proposedBy true s c ;;
      Ok (Some j)
  end.

Definition update_id {R : Type} (rid : R -> string) (x : string) (f : R -> R)
    (l : list R) : list R :=
  map (fun r => if String.eqb (rid r) x then f r else r) l.

Definition translate (e : SqlError) : PrismaError :=
  match e with
  | FOREIGN_KEY_constraint_failed => P2003_foreign_key_constraint_failed
  | UNIQUE_constraint_failed => P2002_unique_constraint_failed
  end.

(** The nested [clauses: { create: [...] }] of [prisma.contract.create]: the
    [n]-th identifier drawn goes to the next clause. *)
Fixpoint create_clauses (env : Env) (contractId : string) (n : nat)
    (l : list Req.ClauseInput) (s : Store) : result PrismaError Store :=
  match l with
  | [] => Ok s
  | ci :: l' =>
      title <- required (Req.ci_title ci) ;;
      content <- required (Req.ci_content ci) ;;
      userId <- required (Req.ci_userId ci) ;;
      _ <- connect User.id userId (users s) ;;
      _ <- fresh Clause.id (cuid env n) (clauses s) ;;
      create_clauses env contractId (S n) l'
        (set_clauses s
           (clauses s ++
            [Clause.mk (cuid env n) title content contractId userId
               (now env) (now env)]))
  end.

(** [prisma.contract.create] of [POST /]. The nested writes are one
    transaction: on an error the store is the one before the call. The
    nested clauses are written last item first, so the table and the answer
    hold them in the reverse of the body's order. *)
Definition prisma_contract_create (title cohortId : option string)
    (cl : list Req.ClauseInput) (env : Env) (s : Store)
  : result PrismaError (Json.Contract * Store) :=
  title <- required title ;;
  cohortId <- required cohortId ;;
  _ <- connect Cohort.id cohortId (cohorts s) ;;
  _ <- fresh Contract.id (cuid env 0) (contracts s) ;;
  let c := Contract.mk (cuid env 0) title cohortId (now env) (now env) in
  s' <- create_clauses env (cuid env 0) 1 (rev cl)
          (set_contracts s (contracts s ++ [c])) ;;
  j <- include_contract createdBy_only false s' c ;;
  Ok (j, s').

(** [prisma.contract.update] of [PUT /:id]: a title sets the column and
    [updatedAt]; with an [undefined] title there is nothing to write and the
    row is left as it is, [updatedAt] included. *)
Definition prisma_contract_update (x : string) (title : option string)
    (env : Env) (s : Store) : result PrismaError (Json.Contract * Store) :=
  c <- connect Contract.id x (contracts s) ;;
  let upd (c : Contract.t) :=
    match title with
    | Some t =>
        Contract.mk (Contract.id c) t (Contract.cohortId c)
          (Contract.createdAt c) (now env)
    | None => c
    end in
  let s' := set_contracts s (update_id Contract.id x upd (contracts s)) in
  j <- include_contract createdBy_only false s' (upd c) ;;
  Ok (j, s').

(** [prisma.contract.delete] of [DELETE /:id] *)
Definition prisma_contract_delete (x : string) (s : Store)
  : result PrismaError Store :=
  match sql_delete tbl_contracts x s with
  | Err e => Err (translate e)
  | Ok (0, _) => Err P2025_record_not_found
  | Ok (_, s') => Ok s'
  end.

(** [prisma.clause.create] of [POST /:id/clauses] *)
Definition prisma_clause_create (title content : option string)
    (contractId : string) (userId : option string) (env : Env) (s : Store)
  : result PrismaError (Json.Clause * Store) :=
  title <- required title ;;
  content <- required content ;;
  userId <- required userId ;;
  _ <- connect Contract.id contractId (contracts s) ;;
  _ <- connect User.id userId (users s) ;;
  _ <- fresh Clause.id (cuid env 0) (clauses s) ;;
  let c := Clause.mk (cuid env 0) title content contractId userId
             (now env) (now env) in
  let s' := set_clauses s (clauses s ++ [c]) in
  j <- include_clause createdBy_only s' c ;;
  Ok (j, s').

(** The [data] of [prisma.amendment.create]. [status] is a field of the
    model that the caller may leave out. *)
Record AmendmentCreateInput := mkAmendmentCreateInput {
  content : option string;
  clause_connect_id : option string;
  proposedBy_connect_id : option string;
  status_given : option string
}.

(** The row inserted into [amendments]: a column that is left out takes its
    [DEFAULT]. *)
Definition amendments_row (id content userId clauseId : string)
    (status : option string) (env : Env) : Amendment.t :=
  Amendment.mk id content userId clauseId
    (match status with Some st => st | None => amendments_status_default end)
    (now env) (now env).

(** [prisma.amendment.create] of [POST /:id/amend] *)
Definition prisma_amendment_create (data : AmendmentCreateInput) (env : Env)
    (s : Store) : result PrismaError (Json.Amendment * Store) :=
  content <- required (content data) ;;
  clauseId <- required (clause_connect_id data) ;;
  userId <- required (proposedBy_connect_id data) ;;
  _ <- connect Clause.id clauseId (clauses s) ;;
  _ <- connect User.id userId (users s) ;;
  _ <- fresh Amendment.id (cuid env 0) (amendments s) ;;
  let a := amendments_row (cuid env 0) content userId clauseId
             (status_given data) env in
  let s' := set_amendments s (amendments s ++ [a]) in
  j <- amendment_with_proposedBy s' a ;;
  Ok (j, s').

(** ** The route handlers of [contracts.ts]

    Each handler is its [try] block followed by its [catch]: whatever the
    Prisma call throws, the answer is status 500 with the handler's message,
    and the store is as the failed call left it, that is, unchanged. *)

Definition not_found : nat := 404.
Definition internal_server_error : nat := 500.

(** [GET /] *)
Definition GET_contracts (s : Store) : Response * Store :=
  match prisma_contract_findMany s with
  | Ok l => (mkResponse 200 (json_contracts l), s)
  | Err _ =>
      (mkResponse internal_server_error
         (json_error "Failed to fetch contracts"), s)
  end.

(** [POST /] *)
Definition POST_contracts (b : Req.PostContract) (env : Env) (s : Store)
  : Response * Store :=
  match prisma_contract_create (Req.pc_title b) (Req.pc_cohortId b)
          (match Req.pc_clauses b with Some l => l | None => [] end) env s with
  | Ok (j, s') => (mkResponse 201 (json_contract j), s')
  | Err _ =>
      (mkResponse internal_server_error
         (json_error "Failed to create contract"), s)
  end.

(** [GET /:id] *)
Definition GET_contracts_id (id : string) (s : Store) : Response * Store :=
  match prisma_contract_findUnique id s with
  | Ok None => (mkResponse not_found (json_error "Contract not found"), s)
  | Ok (Some j) => (mkResponse 200 (json_contract j), s)
  | Err _ =>
      (mkResponse internal_server_error
         (json_error "Failed to fetch contract"), s)
  end.

(** [PUT /:id] *)
Definition PUT_contracts_id (id : string) (b : Req.PutContract) (env : Env)
    (s : Store) : Response * Store :=
  match prisma_contract_update id (Req.put_title b) env s with
  | Ok (j, s') => (mkResponse 200 (json_contract j), s')
  | Err _ =>
      (mkResponse internal_server_error
         (json_error "Failed to update contract"), s)
  end.

(** [DELETE /:id] *)
Definition DELETE_contracts_id (id : string) (s : Store) : Response * Store :=
  match prisma_contract_delete id s with
  | Ok s' => (mkResponse 204 no_body, s')
  | Err _ =>
      (mkResponse internal_server_error
         (json_error "Failed to delete contract"), s)
  end.

(** [POST /:id/clauses] *)
Definition POST_contracts_id_clauses (id : string) (b : Req.PostClause)
    (env : Env) (s : Store) : Response * Store :=
  match prisma_clause_create (Req.title b) (Req.content b) id
          (Req.userId b) env s with
  | Ok (j, s') => (mkResponse 201 (json_clause j), s')
  | Err _ =>
      (mkResponse internal_server_error
         (json_error "Failed to add clause"), s)
  end.

(** [POST /:id/amend]: [id] is the path parameter, which the handler body
    does not read. *)
Definition POST_contracts_id_amend (id : string) (b : Req.PostAmend)
    (env : Env) (s : Store) : Response * Store :=
  match prisma_amendment_create
          (mkAmendmentCreateInput (Req.am_content b) (Req.clauseId b)
             (Req.am_userId b) None) env s with
  | Ok (j, s') => (mkResponse 201 (json_amendment j), s')
  | Err _ =>
      (mkResponse internal_server_error
         (json_error "Failed to propose amendment"), s)
  end.

(** The requests the router serves. *)
Inductive Request :=
| req_GET_contracts
| req_POST_contracts (b : Req.PostContract)
| req_GET_contracts_id (id : string)
| req_PUT_contracts_id (id : string) (b : Req.PutContract)
| req_DELETE_contracts_id (id : string)
| req_POST_contracts_id_clauses (id : string) (b : Req.PostClause)
| req_POST_contracts_id_amend (id : string) (b : Req.PostAmend).

Definition router (r : Request) (env : Env) (s : Store) : Response * Store :=
  match r with
  | req_GET_contracts => GET_contracts s
  | req_POST_contracts b => POST_contracts b env s
  | req_GET_contracts_id id => GET_contracts_id id s
  | req_PUT_contracts_id id b => PUT_contracts_id id b env s
  | req_DELETE_contracts_id id => DELETE_contracts_id id s
  | req_POST_contracts_id_clauses id b => POST_contracts_id_clauses id b env s
  | req_POST_contracts_id_amend id b => POST_contracts_id_amend id b env s
  end.

(** Serving a sequence of requests, each with its own clock reading and
    identifier supply. *)
Fixpoint serve (l : list (Request * Env)) (s : Store) : Store :=
  match l with
  | [] => s
  | (r, env) :: l' => serve l' (snd (router r env s))
  end.

(** ** Constraints of the schema as predicates on a store *)

(** Every value of the constrained column is a primary key of the
    referenced table. *)
Definition fk_holds (s : Store) (k : ForeignKey) : bool :=
  forallb (row_exists s (fk_references k)) (fk_values s k).

Definition integrity (s : Store) : bool :=
  forallb (fk_holds s) foreign_keys.

(** The same, as a proposition. *)
Definition references_resolve (s : Store) : Prop :=
  forall k x, In x (fk_values s k) -> In x (table_ids s (fk_references k)).

(** Some row still refers to the contract [x]: four tables carry a foreign
    key to [contracts]. *)
Definition contract_dependents (s : Store) (x : string) : bool :=
  referenced s clauses_contractId_fkey x
  || referenced s tension_measurements_contractId_fkey x
  || referenced s journal_entries_contractId_fkey x
  || referenced s failure_entries_contractId_fkey x.

(** A request body field resolves when it is present and names a row. *)
Definition resolves {R : Type} (rid : R -> string) (o : option string)
    (l : list R) : bool :=
  match o with
  | Some x => has_id rid x l
  | None => false
  end.


(** The amendments that a response of [GET /:id] lists under a clause. *)
Definition listed_amendments (r : Response) (clauseId : string)
  : option (list Amendment.t) :=
  match body r with
  | json_contract j =>
      match find (fun c => String.eqb (Clause.id (Json.clause c)) clauseId)
              (Json.clauses j) with
      | Some c =>
          match Json.amendments c with
          | Some l => Some (map Json.amendment l)
          | None => None
          end
      | None => None
      end
  | _ => None
  end.

(** ** The amendment decision of the specification *)

Inductive Decision := ACCEPT | REJECT.

Inductive Failure :=
| NotFound
| InvalidState
| ValidationError
| ConstraintViolation
| InternalError.

Definition decided (d : Decision) : string :=
  match d with
  | ACCEPT => "ACCEPTED"
  | REJECT => "REJECTED"
  end.

Definition set_status (st : string) (a : Amendment.t) : Amendment.t :=
  Amendment.mk (Amendment.id a) (Amendment.content a) (Amendment.userId a)
    (Amendment.clauseId a) st (Amendment.createdAt a) (Amendment.updatedAt a).

Definition overwrite (content : string) (at_ : DateTime) (c : Clause.t)
  : Clause.t :=
  Clause.mk (Clause.id c) (Clause.title c) content (Clause.contractId c)
    (Clause.userId c) (Clause.createdAt c) at_.

(** The timestamp an accepted amendment gives its clause: the clock
    reading, or the instant after the stored value when the clock is not
    ahead of it, so that the timestamp advances whatever the clock. *)
Definition advanced (env : Env) (c : Clause.t) : DateTime :=
  Z.max (now env) (Clause.updatedAt c + 1).

Definition accept (a : Amendment.t) (env : Env) (c : Clause.t) : Clause.t :=
  overwrite (Amendment.content a) (advanced env c) c.

(** Modelled from the spec: the operation [decide(amendmentId, decision,
    deciderId)] of the amendment component. No handler of [contracts.ts]
    writes the [status] column after the insert, so the operation is taken
    from its description: it moves a PENDING amendment to ACCEPTED or
    REJECTED, fails with [InvalidState] when the amendment is not PENDING,
    on ACCEPT overwrites the clause's content with the amendment's and
    advances the clause's [updatedAt], and on REJECT leaves the clause as
    it is. An identifier that names no row is [NotFound], by the taxonomy
    of failures. *)
Definition decide (amendmentId : string) (d : Decision) (deciderId : string)
    (env : Env) (s : Store) : result Failure Store :=
  match find_id Amendment.id amendmentId (amendments s) with
  | None => Err NotFound
  | Some a =>
      if negb (String.eqb (Amendment.status a) "PENDING") then Err InvalidState
      else
        let s1 :=
          set_amendments s
            (update_id Amendment.id amendmentId (set_status (decided d))
               (amendments s)) in
        match d with
        | REJECT => Ok s1
        | ACCEPT =>
            match find_id Clause.id (Amendment.clauseId a) (clauses s) with
            | None => Err NotFound
            | Some _ =>
                Ok (set_clauses s1
                      (update_id Clause.id (Amendment.clauseId a)
                         (accept a env) (clauses s1)))
            end
        end
  end.

(** A call to the system: a request to the router or a decision. *)
Inductive Call :=
| call_router (r : Request)
| call_decide (amendmentId : string) (d : Decision) (deciderId : string).

(** The store after a call; a failed call leaves it as it was. *)
Definition exec (c : Call) (env : Env) (s : Store) : Store :=
  match c with
  | call_router r => snd (router r env s)
  | call_decide amendmentId d deciderId =>
      match decide amendmentId d deciderId env s with
      | Ok s' => s'
      | Err _ => s
      end
  end.

Fixpoint run (l : list (Call * Env)) (s : Store) : Store :=
  match l with
  | [] => s
  | (c, env) :: l' => run l' (exec c env s)
  end.

(** ** Outcomes of a request *)

(** The status codes that each handler can send: the one of its [try]
    block, the 500 of its [catch], and for [GET /:id] the 404 of its
    null check. *)
Definition statuses (r : Request) : list nat :=
  match r with
  | req_GET_contracts => [200; 500]
  | req_POST_contracts _ => [201; 500]
  | req_GET_contracts_id _ => [200; 404; 500]
  | req_PUT_contracts_id _ _ => [200; 500]
  | req_DELETE_contracts_id _ => [204; 500]
  | req_POST_contracts_id_clauses _ _ => [201; 500]
  | req_POST_contracts_id_amend _ _ => [201; 500]
  end.

(** The requests whose handler only queries. *)
Definition is_read (r : Request) : bool :=
  match r with
  | req_GET_contracts | req_GET_contracts_id _ => true
  | _ => false
  end.

(** [PRIMARY KEY]: no two rows of a table share their [id]. *)
Definition primary_keys_unique (s : Store) : Prop :=
  forall t, NoDup (table_ids s t).

(** What an included clause carries, by shape of the include. *)
Definition clause_shape (i : ClauseInclude) (s : Store) (j : Json.Clause)
  : Prop :=
  (exists u, find_id User.id (Clause.userId (Json.clause j)) (users s) = Some u
             /\ Json.createdBy j = select_user u) /\
  match i with
  | createdBy_only => Json.amendments j = None
  | amendments_true =>
      Json.amendments j =
      Some (map amendment_plain (amendments_of s (Clause.id (Json.clause j))))
  | amendments_with_proposedBy =>
      exists l, Json.amendments j = Some l /\
                map Json.amendment l =
                amendments_of s (Clause.id (Json.clause j)) /\
                Forall (fun a =>
                          exists u,
                            find_id User.id (Amendment.userId (Json.amendment a))
                              (users s) = Some u /\
                            Json.proposedBy a = Some (select_user u)) l
  end.

(** What an included contract carries. *)
Definition contract_shape (i : ClauseInclude) (with_members : bool)
    (s : Store) (j : Json.Contract) : Prop :=
  map Json.clause (Json.clauses j) =
  clauses_of s (Contract.id (Json.contract j)) /\
  Forall (clause_shape i s) (Json.clauses j) /\
  find_id Cohort.id (Contract.cohortId (Json.contract j)) (cohorts s) =
  Some (Json.cohort (Json.cohort_of j)) /\
  Json.members (Json.cohort_of j) =
  if with_members
  then Some (map select_user
               (members_of s (Contract.cohortId (Json.contract j))))
  else None.

(** The clause row that a nested [create] makes from an item of the body's
    [clauses], under the contract [contractId]. *)
Definition made_from (env : Env) (contractId : string)
    (ci : Req.ClauseInput) (c : Clause.t) : Prop :=
  Req.ci_title ci = Some (Clause.title c) /\
  Req.ci_content ci = Some (Clause.content c) /\
  Req.ci_userId ci = Some (Clause.userId c) /\
  Clause.contractId c = contractId /\
  Clause.createdAt c = now env /\
  Clause.updatedAt c = now env.

(** An item of the body's [clauses] that the nested [create] cannot
    write: a field is missing or the author does not exist. *)
Definition unwritable (s : Store) (ci : Req.ClauseInput) : bool :=
  match Req.ci_title ci, Req.ci_content ci with
  | Some _, Some _ => negb (resolves User.id (Req.ci_userId ci) (users s))
  | _, _ => true
  end.

(** ** Sample data *)

Definition ids_from (base : string) : nat -> string :=
  fun n => base ++ String (Ascii.ascii_of_nat (48 + n)) "".

Local Open Scope Z_scope.

Definition alice : User.t :=
  User.mk "u1" "alice@example.org" (Some "Alice") "PARTICIPANT" 1 1.

Definition cohort1 : Cohort.t := Cohort.mk "k1" "Spring" None 1 1.

Definition contract1 : Contract.t := Contract.mk "ct1" "Working agreement" "k1" 2 2.

Definition contract2 : Contract.t := Contract.mk "ct2" "Retro rules" "k1" 2 2.

Definition clause1 : Clause.t :=
  Clause.mk "c1" "Meetings" "v1" "ct1" "u1" 3 3.

(** One user in one cohort, two contracts, one clause under the first. *)
Definition store1 : Store :=
  mkStore [alice] [cohort1] [contract1; contract2] [clause1] [] [] [] [] []
    [CohortMember.mk "k1" "u1"].

Definition env_a5 : Env := mkEnv 5 (ids_from "a").

Definition env_b3 : Env := mkEnv 3 (ids_from "b").

(** A proposal on a clause that does not exist. *)
Definition propose_c9 : Req.PostAmend :=
  Req.mkPostAmend (Some "c9") (Some "v2") (Some "u1").

Definition propose_v2 : Req.PostAmend :=
  Req.mkPostAmend (Some "c1") (Some "v2") (Some "u1").

Definition propose_v3 : Req.PostAmend :=
  Req.mkPostAmend (Some "c1") (Some "v3") (Some "u1").

(** [store1] after one proposal at time 5. *)
Definition store2 : Store :=
  snd (POST_contracts_id_amend "ct1" propose_v2 env_a5 store1).

(** [store2] after a second proposal, stamped 3 by a clock that went back. *)
Definition store3 : Store :=
  snd (POST_contracts_id_amend "ct1" propose_v3 env_b3 store2).

(** [store1] with a tension measurement on the second contract, which has
    no clause. *)
Definition store4 : Store :=
  set_tension_measurements store1
    [TensionMeasurement.mk "t1" 7 None "ct2" "u1" 4].

(** The row that [store2] holds for the first proposal. *)
Definition amendment_a0 : Amendment.t :=
  Amendment.mk "a0" "v2" "u1" "c1" "PENDING" 5 5.

Definition env_d9 : Env := mkEnv 9 (ids_from "d").

(** A clock that reads earlier than every stored timestamp. *)
Definition env_c1 : Env := mkEnv 1 (ids_from "c").

(** [store2] after its amendment [a0] has been accepted at time 9. *)
Definition store6 : Store :=
  exec (call_decide "a0" ACCEPT "u1") env_d9 store2.

(** A clause to add, and a new title. *)
Definition new_clause : Req.PostClause :=
  Req.mkPostClause (Some "Breaks") (Some "Every hour") (Some "u1").

Definition new_title : Req.PutContract :=
  Req.mkPutContract (Some "House rules").

(** The row that adding [new_clause] under [ct1] at time 5 makes. *)
Definition clause_a0 : Clause.t :=
  Clause.mk "a0" "Breaks" "Every hour" "ct1" "u1" 5 5.

(** A contract to create, with two clauses. *)
Definition new_contract : Req.PostContract :=
  Req.mkPostContract (Some "Pairing") (Some "k1")
    (Some [Req.mkClauseInput (Some "Rotation") (Some "Daily") (Some "u1");
           Req.mkClauseInput (Some "Reviews") (Some "Within a day") (Some "u1")]).

(** A contract to create whose second clause names an unknown author. *)
Definition bad_contract : Req.PostContract :=
  Req.mkPostContract (Some "Pairing") (Some "k1")
    (Some [Req.mkClauseInput (Some "Rotation") (Some "Daily") (Some "u1");
           Req.mkClauseInput (Some "Reviews") (Some "Within a day") (Some "u7")]).

(** The row that [store3] holds for the second proposal. *)
Definition amendment_b0 : Amendment.t :=
  Amendment.mk "b0" "v3" "u1" "c1" "PENDING" 3 3.





(** A cohort with one member and no contract. *)
Definition store5 : Store :=
  mkStore [alice] [cohort1] [] [] [] [] [] [] []
    [CohortMember.mk "k1" "u1"].

Local Close Scope Z_scope.

(** * Properties *)

(** ** Lookups *)

Lemma has_id_find_id {R : Type} (rid : R -> string) x (l : list R) :
  has_id rid x l = true <-> exists r, find_id rid x l = Some r.
Proof.
  unfold has_id, find_id. induction l as [|r l IH]; simpl.
  - split; [discriminate | intros [r H]; discriminate].
  - destruct (String.eqb (rid r) x); simpl.
    + split; eauto.
    + exact IH.
Qed.

Lemma has_id_false_find_id {R : Type} (rid : R -> string) x (l : list R) :
  has_id rid x l = false <-> find_id rid x l = None.
Proof.
  unfold has_id, find_id. induction l as [|r l IH]; simpl.
  - tauto.
  - destruct (String.eqb (rid r) x); simpl.
    + split; discriminate.
    + exact IH.
Qed.

Lemma find_id_In {R : Type} (rid : R -> string) x (l : list R) r :
  find_id rid x l = Some r -> In r l /\ rid r = x.
Proof.
  unfold find_id. intros H. apply find_some in H. destruct H as [H1 H2].
  split; [assumption | now apply String.eqb_eq].
Qed.

Lemma find_id_app_l {R : Type} (rid : R -> string) x (l l' : list R) r :
  find_id rid x l = Some r -> find_id rid x (l ++ l') = Some r.
Proof.
  unfold find_id. induction l as [|a l IH]; simpl; [discriminate|].
  destruct (String.eqb (rid a) x); auto.
Qed.

Lemma has_id_In {R : Type} (rid : R -> string) x (l : list R) :
  has_id rid x l = true <-> In x (map rid l).
Proof.
  unfold has_id. rewrite existsb_exists, in_map_iff. split.
  - intros [r [H1 H2]]. exists r. split; [now apply String.eqb_eq | assumption].
  - intros [r [H1 H2]]. exists r. split; [assumption | now apply String.eqb_eq].
Qed.

Lemma connect_unresolved {R : Type} (rid : R -> string) x (l : list R) :
  resolves rid (Some x) l = false -> connect rid x l = Err P2025_record_not_found.
Proof.
  simpl. intros H. apply has_id_false_find_id in H. unfold connect.
  now rewrite H.
Qed.

(** ** [prisma.amendment.create]: when it succeeds and what it writes *)

Lemma prisma_amendment_create_Ok data env s j s' :
  prisma_amendment_create data env s = Ok (j, s') ->
  exists text clauseId userId c u,
    content data = Some text /\
    clause_connect_id data = Some clauseId /\
    proposedBy_connect_id data = Some userId /\
    find_id Clause.id clauseId (clauses s) = Some c /\
    find_id User.id userId (users s) = Some u /\
    has_id Amendment.id (cuid env 0) (amendments s) = false /\
    let a := amendments_row (cuid env 0) text userId clauseId
               (status_given data) env in
    s' = set_amendments s (amendments s ++ [a]) /\
    j = Json.mkAmendment a (Some (select_user u)).
Proof.
  unfold prisma_amendment_create.
  destruct (content data) as [text|]; simpl; [|discriminate].
  destruct (clause_connect_id data) as [clauseId|]; simpl; [|discriminate].
  destruct (proposedBy_connect_id data) as [userId|]; simpl; [|discriminate].
  unfold connect.
  destruct (find_id Clause.id clauseId (clauses s)) as [c|] eqn:Hc; simpl;
    [|discriminate].
  destruct (find_id User.id userId (users s)) as [u|] eqn:Hu; simpl;
    [|discriminate].
  unfold fresh.
  destruct (has_id Amendment.id (cuid env 0) (amendments s)) eqn:Hf; simpl;
    [discriminate|].
  unfold amendment_with_proposedBy, include_user, related; simpl.
  rewrite Hu; simpl. intros H. inversion H; subst; clear H.
  exists text, clauseId, userId, c, u. repeat split; reflexivity || assumption.
Qed.

Lemma prisma_amendment_create_succeeds data env s text clauseId userId c u :
  content data = Some text ->
  clause_connect_id data = Some clauseId ->
  proposedBy_connect_id data = Some userId ->
  find_id Clause.id clauseId (clauses s) = Some c ->
  find_id User.id userId (users s) = Some u ->
  has_id Amendment.id (cuid env 0) (amendments s) = false ->
  let a := amendments_row (cuid env 0) text userId clauseId
             (status_given data) env in
  prisma_amendment_create data env s =
  Ok (Json.mkAmendment a (Some (select_user u)),
      set_amendments s (amendments s ++ [a])).
Proof.
  intros H1 H2 H3 Hc Hu Hf. unfold prisma_amendment_create.
  rewrite H1, H2, H3; simpl. unfold connect. rewrite Hc, Hu; simpl.
  unfold fresh. rewrite Hf; simpl.
  unfold amendment_with_proposedBy, include_user, related; simpl.
  rewrite Hu; reflexivity.
Qed.

(** The handler answers 201 exactly when the create call succeeds, and 500
    with an unchanged store otherwise. *)
Lemma POST_amend_cases id b env s :
  (exists j s',
     prisma_amendment_create
       (mkAmendmentCreateInput (Req.am_content b) (Req.clauseId b)
          (Req.am_userId b) None) env s = Ok (j, s') /\
     POST_contracts_id_amend id b env s =
     (mkResponse 201 (json_amendment j), s')) \/
  (exists e,
     prisma_amendment_create
       (mkAmendmentCreateInput (Req.am_content b) (Req.clauseId b)
          (Req.am_userId b) None) env s = Err e /\
     POST_contracts_id_amend id b env s =
     (mkResponse 500 (json_error "Failed to propose amendment"), s)).
Proof.
  unfold POST_contracts_id_amend.
  destruct (prisma_amendment_create _ env s) as [[j s']|e].
  - left. eauto.
  - right. eauto.
Qed.

(** ** Proposing an amendment: [POST /:id/amend] *)

(** A 201 answer carries the row that was appended, built from the body
    with no status given. *)
Lemma POST_amend_created id b env s j s' :
  POST_contracts_id_amend id b env s =
  (mkResponse 201 (json_amendment j), s') ->
  exists text clauseId userId,
    Req.clauseId b = Some clauseId /\
    Json.amendment j =
    amendments_row (cuid env 0) text userId clauseId None env /\
    s' = set_amendments s (amendments s ++ [Json.amendment j]).
Proof.
  intros H.
  destruct (POST_amend_cases id b env s) as [[j0 [s0 [Hc Hr]]]|[e [_ Hr]]];
    rewrite Hr in H; inversion H; subst; clear H.
  apply prisma_amendment_create_Ok in Hc.
  destruct Hc as (text & clauseId & userId & c & u & _ & H2 & _ & _ & _ & _ & Hs & Hj).
  exists text, clauseId, userId. rewrite Hj. simpl in *. auto.
Qed.

(** C3, as stated, fails: a proposal on a clause that does not exist is
    answered with status 500, not with the not-found status 404 that
    [GET /:id] uses. *)
Lemma propose_unresolved_not_404 :
  resolves Clause.id (Req.clauseId propose_c9) (clauses store1) = false /\
  status (fst (POST_contracts_id_amend "ct1" propose_c9 env_a5 store1))
  <> not_found.
Proof.
  split; [reflexivity|]. vm_compute. discriminate.
Qed.

(** C3, amended: when the [clauseId] or the [userId] of the body does not
    resolve to a row, the handler answers with status 500 and the message
    of its [catch], and the store is unchanged, so no amendment is
    persisted. *)
Theorem propose_unresolved_fails id b env s :
  resolves Clause.id (Req.clauseId b) (clauses s) = false \/
  resolves User.id (Req.am_userId b) (users s) = false ->
  POST_contracts_id_amend id b env s =
  (mkResponse internal_server_error
     (json_error "Failed to propose amendment"), s).
Proof.
  intros H.
  destruct (POST_amend_cases id b env s) as [[j [s' [Hc _]]]|[e [_ Hr]]];
    [|exact Hr].
  exfalso.
  apply prisma_amendment_create_Ok in Hc.
  destruct Hc as (text & clauseId & userId & c & u & _ & H2 & H3 & Hc & Hu & _).
  simpl in H2, H3.
  assert (Hc' : has_id Clause.id clauseId (clauses s) = true)
    by (apply has_id_find_id; eauto).
  assert (Hu' : has_id User.id userId (users s) = true)
    by (apply has_id_find_id; eauto).
  destruct H as [H|H].
  - rewrite H2 in H. simpl in H. congruence.
  - rewrite H3 in H. simpl in H. congruence.
Qed.

Lemma propose_unresolved_fails_witness :
  POST_contracts_id_amend "ct1" propose_c9 env_a5 store1 =
  (mkResponse internal_server_error
     (json_error "Failed to propose amendment"), store1).
Proof.
  apply (propose_unresolved_fails "ct1" propose_c9 env_a5 store1).
  left. reflexivity.
Defined.

(** C4: a proposal leaves every table but [amendments] as it was, so the
    target clause, its contract and every other row are the same before and
    after; on success [amendments] grows by one row at its end, with an
    unused identifier and the body's [clauseId], and on failure the whole
    store is the same. *)
Theorem propose_frame id b env s :
  let (r, s') := POST_contracts_id_amend id b env s in
  users s' = users s /\
  cohorts s' = cohorts s /\
  contracts s' = contracts s /\
  clauses s' = clauses s /\
  tension_measurements s' = tension_measurements s /\
  journal_entries s' = journal_entries s /\
  failure_entries s' = failure_entries s /\
  iterations s' = iterations s /\
  CohortMembers s' = CohortMembers s /\
  (forall x, find_id Clause.id x (clauses s') = find_id Clause.id x (clauses s)) /\
  ((status r = 201 /\
    exists a, amendments s' = (amendments s ++ [a])%list /\
              ~ In (Amendment.id a) (map Amendment.id (amendments s)) /\
              Req.clauseId b = Some (Amendment.clauseId a))
   \/ (status r = 500 /\ s' = s)).
Proof.
  destruct (POST_amend_cases id b env s) as [[j [s' [Hc Hr]]]|[e [_ Hr]]];
    rewrite Hr.
  - apply prisma_amendment_create_Ok in Hc.
    destruct Hc as (text & clauseId & userId & c & u & _ & H2 & _ & _ & _ & Hf & Hs & _).
    simpl in H2. subst s'. simpl.
    repeat (split; [reflexivity|]).
    left. split; [reflexivity|]. eexists. split; [reflexivity|]. split.
    + rewrite <- has_id_In. simpl. rewrite Hf. discriminate.
    + exact H2.
  - repeat (split; [reflexivity|]). right. split; reflexivity.
Qed.

(** C5: the [DEFAULT] of [amendments.status] is PENDING, a row built without
    a status carries it, and the amendment created by a successful proposal
    is the row appended to the table and has status PENDING. *)
Theorem created_amendment_is_PENDING id b env s :
  amendments_status_default = "PENDING" /\
  (forall i text u c,
     Amendment.status (amendments_row i text u c None env) = "PENDING") /\
  (forall j s',
     POST_contracts_id_amend id b env s =
     (mkResponse 201 (json_amendment j), s') ->
     Amendment.status (Json.amendment j) = "PENDING" /\
     amendments s' = (amendments s ++ [Json.amendment j])%list).
Proof.
  split; [reflexivity|]. split; [reflexivity|].
  intros j s' H.
  destruct (POST_amend_created id b env s j s' H)
    as (text & clauseId & userId & _ & Hj & Hs).
  split; [now rewrite Hj | now rewrite Hs].
Qed.

Lemma created_amendment_is_PENDING_witness :
  exists j s',
    POST_contracts_id_amend "ct1" propose_v2 env_a5 store1 =
    (mkResponse 201 (json_amendment j), s') /\
    Amendment.status (Json.amendment j) = "PENDING".
Proof.
  eexists. eexists. split; [reflexivity|].
  exact (proj1 (proj2 (proj2
           (created_amendment_is_PENDING "ct1" propose_v2 env_a5 store1))
           _ _ eq_refl)).
Defined.

(** C10: the path parameter plays no part in [POST /:id/amend]. The same
    body gives the same response and the same store under any two path ids;
    a created amendment carries the [clauseId] of the body; and the call
    succeeds whenever the body's clause and user exist and the drawn
    identifier is unused, whichever contract the clause belongs to. *)
Theorem amend_ignores_path_id id id' b env s :
  POST_contracts_id_amend id b env s = POST_contracts_id_amend id' b env s /\
  (forall j s',
     POST_contracts_id_amend id b env s =
     (mkResponse 201 (json_amendment j), s') ->
     Req.clauseId b = Some (Amendment.clauseId (Json.amendment j))) /\
  (forall text clauseId userId c u,
     Req.am_content b = Some text ->
     Req.clauseId b = Some clauseId ->
     Req.am_userId b = Some userId ->
     find_id Clause.id clauseId (clauses s) = Some c ->
     find_id User.id userId (users s) = Some u ->
     has_id Amendment.id (cuid env 0) (amendments s) = false ->
     exists j,
       POST_contracts_id_amend id b env s =
       (mkResponse 201 (json_amendment j),
        set_amendments s ((amendments s ++ [Json.amendment j])%list)) /\
       Amendment.clauseId (Json.amendment j) = clauseId).
Proof.
  split; [reflexivity|]. split.
  - intros j s' H.
    destruct (POST_amend_created id b env s j s' H)
      as (text & clauseId & userId & Hb & Hj & _).
    now rewrite Hj.
  - intros text clauseId userId c u H1 H2 H3 Hc Hu Hf.
    unfold POST_contracts_id_amend.
    rewrite (prisma_amendment_create_succeeds _ env s text clauseId userId c u);
      try assumption.
    exists (Json.mkAmendment
              (amendments_row (cuid env 0) text userId clauseId None env)
              (Some (select_user u))).
    split; reflexivity.
Qed.

(** The clause [c1] belongs to contract [ct1]; proposing on it under the
    path of contract [ct2] succeeds all the same. *)
Lemma amend_ignores_path_id_witness :
  Clause.contractId clause1 <> "ct2" /\
  exists j,
    POST_contracts_id_amend "ct2" propose_v2 env_a5 store1 =
    (mkResponse 201 (json_amendment j),
     set_amendments store1 ((amendments store1 ++ [Json.amendment j])%list)) /\
    Amendment.clauseId (Json.amendment j) = "c1".
Proof.
  split; [discriminate|].
  apply (amend_ignores_path_id "ct2" "ct1" propose_v2 env_a5 store1)
    with (text := "v2") (userId := "u1") (c := clause1) (u := alice);
    reflexivity.
Defined.

(** ** Deleting under the foreign keys of the schema *)

Lemma foreign_keys_complete k : In k foreign_keys.
Proof. destruct k; simpl; tauto. Qed.

(** No key refers to [_CohortMembers]: a cascade never goes further than
    the join table. *)
Lemma nothing_references_CohortMembers k :
  fk_references k <> tbl_CohortMembers.
Proof. destruct k; discriminate. Qed.

Lemma restricts_blocks s t x k :
  row_exists s t x = true ->
  restricts s t x k = true ->
  sql_delete t x s = Err FOREIGN_KEY_constraint_failed.
Proof.
  intros He Hr.
  assert (E : existsb (restricts s t x) foreign_keys = true).
  { apply existsb_exists. exists k.
    split; [apply foreign_keys_complete | exact Hr]. }
  unfold sql_delete. rewrite He, E. reflexivity.
Qed.

(** C6, as stated, fails: the key [_CohortMembers_A_fkey] is
    [ON DELETE CASCADE]; a cohort that a membership row still refers to is
    deleted, and the membership row goes with it. *)
Lemma cohort_delete_cascades :
  fk_on_delete _CohortMembers_A_fkey = CASCADE /\
  referenced store5 _CohortMembers_A_fkey "k1" = true /\
  exists s',
    sql_delete tbl_cohorts "k1" store5 = Ok (1, s') /\
    cohorts s' = [] /\ CohortMembers s' = [].
Proof.
  split; [reflexivity|]. split; [reflexivity|].
  eexists. split; [reflexivity|]. split; reflexivity.
Qed.

(** C6, amended: every foreign key carried by a table other than the join
    table [_CohortMembers] is [ON DELETE RESTRICT], and deleting a row that
    such a key still refers to fails with a foreign-key violation; the two
    keys of [_CohortMembers] are [ON DELETE CASCADE], and a delete of a
    cohort or of a user that goes through leaves the join table without the
    rows that referred to it. *)
Theorem restrict_on_delete_except_members k :
  (fk_table k <> tbl_CohortMembers ->
   fk_on_delete k = RESTRICT /\
   forall s x,
     row_exists s (fk_references k) x = true ->
     referenced s k x = true ->
     sql_delete (fk_references k) x s = Err FOREIGN_KEY_constraint_failed) /\
  (fk_table k = tbl_CohortMembers ->
   fk_on_delete k = CASCADE /\
   forall s x n s',
     sql_delete (fk_references k) x s = Ok (S n, s') ->
     CohortMembers s' = CohortMembers (remove_referencing k x s) /\
     referenced s' k x = false).
Proof.
  split.
  - intros Hk.
    assert (Hr : fk_on_delete k = RESTRICT) by (destruct k; simpl in *; congruence).
    split; [exact Hr|].
    intros s x He Hx. apply (restricts_blocks s _ x k He).
    unfold restricts. rewrite Hr, Hx. simpl.
    destruct k; reflexivity.
  - intros Hk.
    assert (Hc : fk_on_delete k = CASCADE) by (destruct k; simpl in *; congruence).
    split; [exact Hc|].
    intros s x n s' H. unfold sql_delete in H.
    destruct (negb (row_exists s (fk_references k) x)); [discriminate|].
    destruct (existsb (restricts s (fk_references k) x) foreign_keys);
      [discriminate|].
    inversion H; subst; clear H.
    assert (Hm : forall l,
               existsb (String.eqb x)
                 (map CohortMember.A (remove_id CohortMember.A x l)) = false
               /\ existsb (String.eqb x)
                    (map CohortMember.B (remove_id CohortMember.B x l)) = false).
    { induction l as [|m l [IHa IHb]]; simpl; [split; reflexivity|].
      split.
      - destruct (String.eqb (CohortMember.A m) x) eqn:E; simpl; [exact IHa|].
        rewrite String.eqb_sym, E. exact IHa.
      - destruct (String.eqb (CohortMember.B m) x) eqn:E; simpl; [exact IHb|].
        rewrite String.eqb_sym, E. exact IHb. }
    destruct k; try discriminate Hk; simpl; (split; [reflexivity|]);
      unfold referenced; simpl; apply Hm.
Qed.

(** The clause [c1] refers to contract [ct1], which therefore cannot be
    deleted; deleting the cohort of [store5] empties the join table. *)
Lemma restrict_on_delete_except_members_witness :
  sql_delete tbl_contracts "ct1" store1 = Err FOREIGN_KEY_constraint_failed /\
  exists s',
    sql_delete tbl_cohorts "k1" store5 = Ok (1, s') /\
    referenced s' _CohortMembers_A_fkey "k1" = false.
Proof.
  split.
  - apply (proj1 (restrict_on_delete_except_members clauses_contractId_fkey));
      [discriminate | reflexivity | reflexivity].
  - eexists. split; [reflexivity|].
    eapply (proj2 (proj2 (restrict_on_delete_except_members
                            _CohortMembers_A_fkey) eq_refl) store5 "k1" 0).
    reflexivity.
Defined.

(** ** Deleting a contract: [DELETE /:id] *)

Lemma existsb_eqb_map {R : Type} (rid : R -> string) x (l : list R) :
  existsb (String.eqb x) (map rid l) = has_id rid x l.
Proof.
  unfold has_id. induction l as [|r l IH]; simpl; [reflexivity|].
  now rewrite IH, String.eqb_sym.
Qed.

Lemma contracts_row_exists s x :
  row_exists s tbl_contracts x = has_id Contract.id x (contracts s).
Proof. apply existsb_eqb_map. Qed.

Lemma contracts_restricts s x :
  existsb (restricts s tbl_contracts x) foreign_keys = contract_dependents s x.
Proof.
  unfold contract_dependents, restricts. simpl.
  destruct (referenced s clauses_contractId_fkey x),
    (referenced s tension_measurements_contractId_fkey x),
    (referenced s journal_entries_contractId_fkey x),
    (referenced s failure_entries_contractId_fkey x); reflexivity.
Qed.

(** No cascading key refers to [contracts]. *)
Lemma contracts_cascade s x :
  fold_left (cascade tbl_contracts x) foreign_keys s = s.
Proof. reflexivity. Qed.

Lemma sql_delete_contracts s x :
  sql_delete tbl_contracts x s =
  if negb (has_id Contract.id x (contracts s)) then Ok (0, s)
  else if contract_dependents s x then Err FOREIGN_KEY_constraint_failed
  else Ok (1, set_contracts s (remove_id Contract.id x (contracts s))).
Proof.
  unfold sql_delete.
  rewrite contracts_row_exists, contracts_restricts, contracts_cascade.
  reflexivity.
Qed.

(** C7, as stated, fails: contract [ct2] of [store4] has no clause, but a
    tension measurement refers to it; its delete is answered with status
    500 and the contract remains. *)
Lemma delete_blocked_without_clauses :
  has_id Contract.id "ct2" (contracts store4) = true /\
  clauses_of store4 "ct2" = [] /\
  DELETE_contracts_id "ct2" store4 =
  (mkResponse 500 (json_error "Failed to delete contract"), store4).
Proof. repeat split. Qed.

(** C7, amended: for an existing contract that a clause, a tension
    measurement, a journal entry or a failure entry still refers to, the
    delete raises a foreign-key violation, the handler answers with status
    500 and the message of its [catch], and the store is unchanged; for an
    existing contract with none of these, the handler answers 204 and the
    new store differs from the old one in the [contracts] table only, from
    which exactly the rows with that id are gone. *)
Theorem delete_contract id s :
  has_id Contract.id id (contracts s) = true ->
  (contract_dependents s id = true ->
   prisma_contract_delete id s = Err P2003_foreign_key_constraint_failed /\
   DELETE_contracts_id id s =
   (mkResponse internal_server_error
      (json_error "Failed to delete contract"), s)) /\
  (contract_dependents s id = false ->
   DELETE_contracts_id id s =
   (mkResponse 204 no_body,
    set_contracts s (remove_id Contract.id id (contracts s))) /\
   forall c, In c (remove_id Contract.id id (contracts s)) <->
             In c (contracts s) /\ Contract.id c <> id).
Proof.
  intros He.
  unfold DELETE_contracts_id, prisma_contract_delete.
  rewrite sql_delete_contracts, He. simpl.
  split; intros Hd; rewrite Hd; simpl.
  - split; reflexivity.
  - split; [reflexivity|].
    intros c. unfold remove_id. rewrite filter_In.
    rewrite negb_true_iff, String.eqb_neq. tauto.
Qed.

(** Contract [ct1] of [store1] owns a clause and stays; contract [ct2] has
    no dependent row and goes. *)
Lemma delete_contract_witness :
  DELETE_contracts_id "ct1" store1 =
  (mkResponse internal_server_error
     (json_error "Failed to delete contract"), store1) /\
  DELETE_contracts_id "ct2" store1 =
  (mkResponse 204 no_body, set_contracts store1 [contract1]).
Proof.
  split.
  - apply (proj1 (delete_contract "ct1" store1 eq_refl) eq_refl).
  - apply (proj2 (delete_contract "ct2" store1 eq_refl) eq_refl).
Defined.

(** ** Reading a contract: [GET /:id] *)

Lemma mapM_Forall2 {E A B : Type} (f : A -> result E B) l bs :
  mapM f l = Ok bs -> Forall2 (fun a b => f a = Ok b) l bs.
Proof.
  revert bs. induction l as [|a l IH]; simpl; intros bs H.
  - inversion H. constructor.
  - destruct (f a) as [b|e] eqn:Ha; simpl in H; [|discriminate].
    destruct (mapM f l) as [bs'|e]; simpl in H; [|discriminate].
    inversion H; subst. constructor; auto.
Qed.

Lemma mapM_total {E A B : Type} (f : A -> result E B) l :
  (forall a, In a l -> exists b, f a = Ok b) ->
  exists bs, mapM f l = Ok bs.
Proof.
  induction l as [|a l IH]; simpl; intros H.
  - eauto.
  - destruct (H a (or_introl eq_refl)) as [b Hb]. rewrite Hb. simpl.
    destruct IH as [bs Hbs]; [intros; apply H; auto|].
    rewrite Hbs. simpl. eauto.
Qed.

Lemma Forall2_proj {A B : Type} (P : A -> B -> Prop) (p : B -> A) l bs :
  (forall a b, P a b -> p b = a) ->
  Forall2 P l bs -> map p bs = l.
Proof.
  intros Hp H. induction H; simpl; [reflexivity|].
  f_equal; auto.
Qed.

Lemma Forall2_In_r {A B : Type} (P : A -> B -> Prop) l bs b :
  Forall2 P l bs -> In b bs -> exists a, In a l /\ P a b.
Proof.
  intros H. induction H as [|a b' l bs Hab H IH]; simpl; [tauto|].
  intros [E|Hin].
  - subst. eauto.
  - destruct (IH Hin) as [a0 [H1 H2]]. eauto.
Qed.

Lemma integrity_fk s k : integrity s = true -> fk_holds s k = true.
Proof.
  unfold integrity. rewrite forallb_forall. intros H. apply H.
  apply foreign_keys_complete.
Qed.

Lemma integrity_related s k x :
  integrity s = true ->
  In x (fk_values s k) ->
  row_exists s (fk_references k) x = true.
Proof.
  intros Hi Hx. apply integrity_fk with (k := k) in Hi.
  unfold fk_holds in Hi. rewrite forallb_forall in Hi. auto.
Qed.

Lemma clause_author s c :
  integrity s = true -> In c (clauses s) ->
  exists u, find_id User.id (Clause.userId c) (users s) = Some u.
Proof.
  intros Hi Hc. apply has_id_find_id. rewrite <- existsb_eqb_map.
  apply (integrity_related s clauses_userId_fkey); [assumption|].
  simpl. now apply in_map.
Qed.

Lemma amendment_proposer s a :
  integrity s = true -> In a (amendments s) ->
  exists u, find_id User.id (Amendment.userId a) (users s) = Some u.
Proof.
  intros Hi Ha. apply has_id_find_id. rewrite <- existsb_eqb_map.
  apply (integrity_related s amendments_userId_fkey); [assumption|].
  simpl. now apply in_map.
Qed.

Lemma contract_cohort s c :
  integrity s = true -> In c (contracts s) ->
  exists k, find_id Cohort.id (Contract.cohortId c) (cohorts s) = Some k.
Proof.
  intros Hi Hc. apply has_id_find_id. rewrite <- existsb_eqb_map.
  apply (integrity_related s contracts_cohortId_fkey); [assumption|].
  simpl. now apply in_map.
Qed.

Lemma amendment_with_proposedBy_Ok s a j :
  amendment_with_proposedBy s a = Ok j -> Json.amendment j = a.
Proof.
  unfold amendment_with_proposedBy, include_user, related.
  destruct (find_id User.id (Amendment.userId a) (users s)); simpl;
    [|discriminate].
  intros H. inversion H. reflexivity.
Qed.

Lemma amendment_with_proposedBy_total s a :
  integrity s = true -> In a (amendments s) ->
  exists j, amendment_with_proposedBy s a = Ok j.
Proof.
  intros Hi Ha. destruct (amendment_proposer s a Hi Ha) as [u Hu].
  unfold amendment_with_proposedBy, include_user, related.
  rewrite Hu. simpl. eauto.
Qed.

Lemma amendments_of_In s x a :
  In a (amendments_of s x) <-> In a (amendments s) /\ Amendment.clauseId a = x.
Proof.
  unfold amendments_of. rewrite filter_In, String.eqb_eq. tauto.
Qed.

Lemma clauses_of_In s x c :
  In c (clauses_of s x) <-> In c (clauses s) /\ Clause.contractId c = x.
Proof.
  unfold clauses_of. rewrite filter_In, String.eqb_eq. tauto.
Qed.

(** A clause as [GET /:id] includes it: the row, and under [amendments] the
    rows of [amendments_of] in the same order. *)
Lemma include_clause_full_Ok s c j :
  include_clause amendments_with_proposedBy s c = Ok j ->
  Json.clause j = c /\
  exists l, Json.amendments j = Some l /\
            map Json.amendment l = amendments_of s (Clause.id c).
Proof.
  unfold include_clause.
  destruct (include_user s (Clause.userId c)) as [u|e]; simpl; [|discriminate].
  destruct (mapM (amendment_with_proposedBy s) (amendments_of s (Clause.id c)))
    as [l|e] eqn:Hl; simpl; [|discriminate].
  intros H. inversion H; subst; clear H. simpl. split; [reflexivity|].
  exists l. split; [reflexivity|].
  apply mapM_Forall2 in Hl.
  apply (Forall2_proj _ Json.amendment _ _ (amendment_with_proposedBy_Ok s) Hl).
Qed.

Lemma include_clause_full_total s c :
  integrity s = true -> In c (clauses s) ->
  exists j, include_clause amendments_with_proposedBy s c = Ok j.
Proof.
  intros Hi Hc. destruct (clause_author s c Hi Hc) as [u Hu].
  unfold include_clause, include_user, related. rewrite Hu. simpl.
  destruct (mapM_total (amendment_with_proposedBy s)
              (amendments_of s (Clause.id c))) as [l Hl].
  - intros a Ha. apply amendments_of_In in Ha.
    apply amendment_with_proposedBy_total; tauto.
  - rewrite Hl. simpl. eauto.
Qed.

(** The contract tree that [GET /:id] asks for can be built on a store that
    satisfies the foreign keys, and holds the rows one expects. *)
Lemma include_contract_full s c :
  integrity s = true -> In c (contracts s) ->
  exists j,
    include_contract amendments_with_proposedBy true s c = Ok j /\
    Json.contract j = c /\
    map Json.clause (Json.clauses j) = clauses_of s (Contract.id c) /\
    (forall cj, In cj (Json.clauses j) ->
       exists l, Json.amendments cj = Some l /\
                 map Json.amendment l =
                 amendments_of s (Clause.id (Json.clause cj))) /\
    find_id Cohort.id (Contract.cohortId c) (cohorts s) =
    Some (Json.cohort (Json.cohort_of j)).
Proof.
  intros Hi Hin. unfold include_contract.
  destruct (mapM_total (include_clause amendments_with_proposedBy s)
              (clauses_of s (Contract.id c))) as [cl Hcl].
  { intros c0 H0. apply clauses_of_In in H0.
    apply include_clause_full_total; tauto. }
  rewrite Hcl. simpl.
  destruct (contract_cohort s c Hi Hin) as [k Hk].
  unfold include_cohort, related. rewrite Hk. simpl.
  eexists. split; [reflexivity|]. simpl.
  apply mapM_Forall2 in Hcl.
  split; [reflexivity|]. split; [|split; [|reflexivity]].
  - apply (Forall2_proj _ Json.clause _ _
             (fun a b H => proj1 (include_clause_full_Ok s a b H)) Hcl).
  - intros cj Hcj.
    destruct (Forall2_In_r _ _ _ cj Hcl Hcj) as [c0 [_ H0]].
    apply include_clause_full_Ok in H0. destruct H0 as [E H0].
    rewrite E. exact H0.
Qed.

(** [GET /:id] is a read. *)
Lemma GET_contracts_id_store id s : snd (GET_contracts_id id s) = s.
Proof.
  unfold GET_contracts_id.
  destruct (prisma_contract_findUnique id s) as [[j|]|e]; reflexivity.
Qed.

Lemma GET_contracts_id_found id s c j :
  find_id Contract.id id (contracts s) = Some c ->
  include_contract amendments_with_proposedBy true s c = Ok j ->
  GET_contracts_id id s = (mkResponse 200 (json_contract j), s).
Proof.
  intros Hc Hj. unfold GET_contracts_id, prisma_contract_findUnique.
  rewrite Hc, Hj. reflexivity.
Qed.

(** C8: [GET /:id] answers 404 exactly when no contract has the id and never
    changes the store; on a store that satisfies the foreign keys of the
    schema, when a contract has the id the answer is 200 with that contract
    row, the rows of [clauses] that carry its id, in table order, under each
    of them the rows of [amendments] that carry the clause's id, in table
    order, and the row of [cohorts] that the contract refers to. *)
Theorem get_contract id s :
  (status (fst (GET_contracts_id id s)) = not_found <->
   find_id Contract.id id (contracts s) = None) /\
  snd (GET_contracts_id id s) = s /\
  (integrity s = true ->
   forall c, find_id Contract.id id (contracts s) = Some c ->
   exists j,
     GET_contracts_id id s = (mkResponse 200 (json_contract j), s) /\
     Json.contract j = c /\
     map Json.clause (Json.clauses j) =
     filter (fun c0 => String.eqb (Clause.contractId c0) id) (clauses s) /\
     (forall cj, In cj (Json.clauses j) ->
        exists l, Json.amendments cj = Some l /\
                  map Json.amendment l =
                  filter
                    (fun a => String.eqb (Amendment.clauseId a)
                                (Clause.id (Json.clause cj)))
                    (amendments s)) /\
     In (Json.cohort (Json.cohort_of j)) (cohorts s) /\
     Cohort.id (Json.cohort (Json.cohort_of j)) = Contract.cohortId c).
Proof.
  split; [|split].
  - unfold GET_contracts_id, prisma_contract_findUnique.
    destruct (find_id Contract.id id (contracts s)) as [c|].
    + destruct (include_contract _ _ s c); simpl;
        split; intros H; discriminate H.
    + simpl. split; reflexivity.
  - apply GET_contracts_id_store.
  - intros Hi c Hc.
    destruct (find_id_In _ _ _ _ Hc) as [Hin Hid].
    destruct (include_contract_full s c Hi Hin)
      as (j & Hj & Ej & Hcl & Ham & Hk).
    exists j. split; [exact (GET_contracts_id_found id s c j Hc Hj)|].
    rewrite Hid in Hcl. split; [exact Ej|]. split; [exact Hcl|].
    split; [exact Ham|]. now apply find_id_In in Hk.
Qed.

(** On [store3], which satisfies the foreign keys, contract [ct1] is read
    back with its clause [c1], the two amendments proposed on it and its
    cohort; an id that names no contract gives 404. *)
Lemma get_contract_witness :
  status (fst (GET_contracts_id "zz" store3)) = not_found /\
  exists j,
    GET_contracts_id "ct1" store3 = (mkResponse 200 (json_contract j), store3) /\
    Json.contract j = contract1 /\
    map Json.clause (Json.clauses j) = [clause1] /\
    (forall cj, In cj (Json.clauses j) ->
       option_map (map Json.amendment) (Json.amendments cj) =
       Some [amendment_a0; amendment_b0]) /\
    Json.cohort (Json.cohort_of j) = cohort1.
Proof.
  split.
  - apply (proj1 (get_contract "zz" store3)). reflexivity.
  - destruct (proj2 (proj2 (get_contract "ct1" store3)) eq_refl contract1 eq_refl)
      as (j & H1 & H2 & H3 & H4 & H5 & H6).
    exists j. split; [exact H1|]. split; [exact H2|]. split; [exact H3|].
    split.
    + intros cj Hcj. destruct (H4 cj Hcj) as [l [Hl1 Hl2]].
      assert (E : Json.clause cj = clause1).
      { apply (in_map Json.clause) in Hcj. rewrite H3 in Hcj.
        destruct Hcj as [E|[]]. now symmetry. }
      rewrite Hl1. simpl. rewrite Hl2, E. reflexivity.
    + destruct H5 as [E|[]]. now symmetry.
Defined.

(** ** The amendments listed under a clause *)



Lemma find_map_clause (l : list Json.Clause) x c :
  find (fun cj => String.eqb (Clause.id (Json.clause cj)) x) l = Some c ->
  In c l /\ Clause.id (Json.clause c) = x.
Proof.
  intros H. apply find_some in H. now rewrite String.eqb_eq in H.
Qed.

Lemma find_through_map {A B : Type} (p : B -> A) (f : A -> bool) (l : list B) :
  find f (map p l) = option_map p (find (fun b => f (p b)) l).
Proof.
  induction l as [|b l IH]; simpl; [reflexivity|].
  destruct (f (p b)); [reflexivity | exact IH].
Qed.




(** ** Deciding an amendment *)

Lemma find_id_update_other {R : Type} (rid : R -> string) x y (f : R -> R)
    (l : list R) :
  (forall r, rid (f r) = rid r) -> x <> y ->
  find_id rid y (update_id rid x f l) = find_id rid y l.
Proof.
  intros Hf Hxy. unfold find_id, update_id.
  induction l as [|r l IH]; simpl; [reflexivity|].
  destruct (String.eqb (rid r) x) eqn:Ex.
  - rewrite Hf. apply String.eqb_eq in Ex.
    destruct (String.eqb (rid r) y) eqn:Ey.
    + apply String.eqb_eq in Ey. congruence.
    + exact IH.
  - destruct (String.eqb (rid r) y); [reflexivity | exact IH].
Qed.

Lemma find_id_update_same {R : Type} (rid : R -> string) x (f : R -> R)
    (l : list R) :
  (forall r, rid (f r) = rid r) ->
  find_id rid x (update_id rid x f l) = option_map f (find_id rid x l).
Proof.
  intros Hf. unfold find_id, update_id.
  induction l as [|r l IH]; simpl; [reflexivity|].
  destruct (String.eqb (rid r) x) eqn:Ex.
  - rewrite Hf, Ex. reflexivity.
  - rewrite Ex. exact IH.
Qed.

(** What a successful decision has found and what it has written. *)
Lemma decide_Ok amendmentId d deciderId env s s' :
  decide amendmentId d deciderId env s = Ok s' ->
  exists a,
    find_id Amendment.id amendmentId (amendments s) = Some a /\
    Amendment.status a = "PENDING" /\
    amendments s' =
    update_id Amendment.id amendmentId (set_status (decided d)) (amendments s) /\
    clauses s' =
    match d with
    | ACCEPT =>
        update_id Clause.id (Amendment.clauseId a) (accept a env) (clauses s)
    | REJECT => clauses s
    end.
Proof.
  unfold decide.
  destruct (find_id Amendment.id amendmentId (amendments s)) as [a|];
    [|discriminate].
  destruct (String.eqb (Amendment.status a) "PENDING") eqn:Est; simpl;
    [|discriminate].
  apply String.eqb_eq in Est.
  destruct d.
  - destruct (find_id Clause.id (Amendment.clauseId a) (clauses s));
      [|discriminate].
    intros H. inversion H; subst; clear H. exists a. simpl. auto.
  - intros H. inversion H; subst; clear H. exists a. simpl. auto.
Qed.

Lemma decide_not_pending amendmentId d deciderId env s a :
  find_id Amendment.id amendmentId (amendments s) = Some a ->
  Amendment.status a <> "PENDING" ->
  decide amendmentId d deciderId env s = Err InvalidState.
Proof.
  intros Hf Hst. unfold decide. rewrite Hf.
  apply String.eqb_neq in Hst. rewrite Hst. reflexivity.
Qed.

(** The nested clause creation writes to [clauses] only. *)
Lemma create_clauses_frame env contractId l : forall n s s',
  create_clauses env contractId n l s = Ok s' ->
  s' = set_clauses s (clauses s').
Proof.
  induction l as [|ci l IH]; simpl; intros n s s' H.
  - inversion H; subst. destruct s'; reflexivity.
  - destruct (required (Req.ci_title ci)) as [title|]; simpl in H; [|discriminate].
    destruct (required (Req.ci_content ci)) as [text|]; simpl in H; [|discriminate].
    destruct (required (Req.ci_userId ci)) as [userId|]; simpl in H; [|discriminate].
    destruct (connect User.id userId (users s)); simpl in H; [|discriminate].
    destruct (fresh Clause.id (cuid env n) (clauses s)); simpl in H; [|discriminate].
    apply IH in H. rewrite H. reflexivity.
Qed.

(** The router never rewrites a stored amendment: its table is kept as it
    is or extended at its end. *)
Lemma router_amendments r env s :
  exists l, amendments (snd (router r env s)) = (amendments s ++ l)%list.
Proof.
  assert (same : forall s', amendments s' = amendments s ->
                 exists l, amendments s' = (amendments s ++ l)%list).
  { intros s' E. exists []. now rewrite app_nil_r. }
  destruct r as [|b|id|id b|id|id b|id b]; simpl.
  - unfold GET_contracts. destruct (prisma_contract_findMany s); auto.
  - unfold POST_contracts, prisma_contract_create.
    destruct (required (Req.pc_title b)); simpl; auto.
    destruct (required (Req.pc_cohortId b)); simpl; auto.
    destruct (connect Cohort.id _ (cohorts s)); simpl; auto.
    destruct (fresh Contract.id _ (contracts s)); simpl; auto.
    destruct (create_clauses env _ 1 _ _) as [s'|] eqn:Hc; simpl; auto.
    destruct (include_contract _ _ s' _); simpl; auto.
    apply create_clauses_frame in Hc. apply same. rewrite Hc. reflexivity.
  - rewrite GET_contracts_id_store. auto.
  - unfold PUT_contracts_id, prisma_contract_update.
    destruct (connect Contract.id id (contracts s)); simpl; auto.
    destruct (include_contract _ _ _ _); simpl; auto.
  - unfold DELETE_contracts_id, prisma_contract_delete.
    rewrite sql_delete_contracts.
    destruct (negb (has_id Contract.id id (contracts s))); simpl; auto.
    destruct (contract_dependents s id); simpl; auto.
  - unfold POST_contracts_id_clauses, prisma_clause_create.
    destruct (required (Req.title b)); simpl; auto.
    destruct (required (Req.content b)); simpl; auto.
    destruct (required (Req.userId b)); simpl; auto.
    destruct (connect Contract.id id (contracts s)); simpl; auto.
    destruct (connect User.id _ (users s)); simpl; auto.
    destruct (fresh Clause.id _ (clauses s)); simpl; auto.
    destruct (include_clause _ _ _); simpl; auto.
  - destruct (POST_amend_cases id b env s) as [[j [s' [Hc Hr]]]|[e [_ Hr]]];
      rewrite Hr; simpl; auto.
    apply prisma_amendment_create_Ok in Hc.
    destruct Hc as (text & clauseId & userId & c & u & _ & _ & _ & _ & _ & _ & Hs & _).
    rewrite Hs. simpl. eauto.
Qed.

(** One call leaves a decided amendment as it found it. *)
Lemma exec_keeps_decided c env s amendmentId a :
  find_id Amendment.id amendmentId (amendments s) = Some a ->
  Amendment.status a <> "PENDING" ->
  find_id Amendment.id amendmentId (amendments (exec c env s)) = Some a.
Proof.
  intros Hf Hst. destruct c as [r|x d deciderId]; simpl.
  - destruct (router_amendments r env s) as [l Hl]. rewrite Hl.
    now apply find_id_app_l.
  - destruct (decide x d deciderId env s) as [s'|e] eqn:Hd; [|exact Hf].
    apply decide_Ok in Hd. destruct Hd as (a' & Hf' & Hst' & Ham & _).
    rewrite Ham.
    destruct (String.eqb x amendmentId) eqn:E.
    + apply String.eqb_eq in E. subst x. congruence.
    + apply String.eqb_neq in E.
      rewrite find_id_update_other; [exact Hf | reflexivity | exact E].
Qed.

(** C1: an amendment whose status is not PENDING cannot be decided again:
    the decision fails with [InvalidState] whichever way it goes, and after
    any sequence of router requests and decisions the amendment is found as
    it was, status included. *)
Theorem decided_amendment_is_final s amendmentId a :
  find_id Amendment.id amendmentId (amendments s) = Some a ->
  Amendment.status a <> "PENDING" ->
  (forall d deciderId env,
     decide amendmentId d deciderId env s = Err InvalidState /\
     exec (call_decide amendmentId d deciderId) env s = s) /\
  (forall l,
     find_id Amendment.id amendmentId (amendments (run l s)) = Some a).
Proof.
  intros Hf Hst. split.
  - intros d deciderId env.
    pose proof (decide_not_pending amendmentId d deciderId env s a Hf Hst) as E.
    split; [exact E|]. simpl. now rewrite E.
  - intros l. revert s Hf. induction l as [|[c env] l IH]; simpl; intros s Hf.
    + exact Hf.
    + apply IH. now apply exec_keeps_decided.
Qed.

(** In [store6] amendment [a0] is ACCEPTED: rejecting it fails, and it is
    still ACCEPTED after another proposal and another attempt. *)
Lemma decided_amendment_is_final_witness :
  decide "a0" REJECT "u1" env_d9 store6 = Err InvalidState /\
  option_map Amendment.status
    (find_id Amendment.id "a0"
       (amendments
          (run [(call_router (req_POST_contracts_id_amend "ct1" propose_v3),
                 env_b3);
                (call_decide "a0" REJECT "u1", env_d9)] store6)))
  = Some "ACCEPTED".
Proof.
  pose proof (decided_amendment_is_final store6 "a0"
                (set_status "ACCEPTED" amendment_a0) eq_refl) as H.
  destruct H as [H1 H2]; [discriminate|]. split.
  - apply H1.
  - rewrite H2. reflexivity.
Defined.

(** C2: for a PENDING amendment on an existing clause, ACCEPT succeeds,
    marks the amendment ACCEPTED and leaves the clause with the amendment's
    content and a later [updatedAt] than before, whatever the clock reads
    (the clock reading itself when the clock is ahead of the old value),
    its other columns being kept; REJECT succeeds, marks the amendment
    REJECTED and leaves the [clauses] table, hence the clause's content and
    [updatedAt], as it was. *)
Theorem decide_pending s env amendmentId deciderId a c :
  find_id Amendment.id amendmentId (amendments s) = Some a ->
  Amendment.status a = "PENDING" ->
  find_id Clause.id (Amendment.clauseId a) (clauses s) = Some c ->
  (exists s' c',
     decide amendmentId ACCEPT deciderId env s = Ok s' /\
     find_id Amendment.id amendmentId (amendments s') =
     Some (set_status "ACCEPTED" a) /\
     find_id Clause.id (Amendment.clauseId a) (clauses s') = Some c' /\
     Clause.content c' = Amendment.content a /\
     (Clause.updatedAt c < Clause.updatedAt c')%Z /\
     (now env <= Clause.updatedAt c')%Z /\
     ((Clause.updatedAt c < now env)%Z -> Clause.updatedAt c' = now env) /\
     Clause.id c' = Clause.id c /\
     Clause.title c' = Clause.title c /\
     Clause.contractId c' = Clause.contractId c /\
     Clause.userId c' = Clause.userId c /\
     Clause.createdAt c' = Clause.createdAt c) /\
  (exists s',
     decide amendmentId REJECT deciderId env s = Ok s' /\
     find_id Amendment.id amendmentId (amendments s') =
     Some (set_status "REJECTED" a) /\
     clauses s' = clauses s /\
     find_id Clause.id (Amendment.clauseId a) (clauses s') = Some c).
Proof.
  intros Hf Hst Hc.
  assert (Est : String.eqb (Amendment.status a) "PENDING" = true)
    by now apply String.eqb_eq.
  split.
  - exists (set_clauses
              (set_amendments s
                 (update_id Amendment.id amendmentId (set_status "ACCEPTED")
                    (amendments s)))
              (update_id Clause.id (Amendment.clauseId a) (accept a env)
                 (clauses s))),
           (accept a env c).
    split; [|split; [|split]].
    + unfold decide. rewrite Hf, Est, Hc. reflexivity.
    + simpl. rewrite find_id_update_same, Hf; reflexivity.
    + simpl. rewrite find_id_update_same, Hc; reflexivity.
    + unfold accept, advanced. simpl.
      repeat split; try reflexivity; lia.
  - exists (set_amendments s
              (update_id Amendment.id amendmentId (set_status "REJECTED")
                 (amendments s))).
    split; [|split; [|split]].
    + unfold decide. rewrite Hf, Est. reflexivity.
    + simpl. rewrite find_id_update_same, Hf; reflexivity.
    + reflexivity.
    + exact Hc.
Qed.

(** In [store2] amendment [a0] proposes "v2" for clause [c1], last updated
    at 3. Accepting it at 9 gives the clause content "v2" and [updatedAt]
    9; accepting it when the clock reads 1 still gives a later [updatedAt]
    than 3; rejecting it keeps the clause. *)
Lemma decide_pending_witness :
  (exists s' c',
     decide "a0" ACCEPT "u1" env_d9 store2 = Ok s' /\
     find_id Clause.id "c1" (clauses s') = Some c' /\
     Clause.content c' = "v2" /\
     Clause.updatedAt c' = now env_d9) /\
  (exists s' c',
     decide "a0" ACCEPT "u1" env_c1 store2 = Ok s' /\
     find_id Clause.id "c1" (clauses s') = Some c' /\
     (Clause.updatedAt clause1 < Clause.updatedAt c')%Z) /\
  (exists s',
     decide "a0" REJECT "u1" env_d9 store2 = Ok s' /\
     find_id Clause.id "c1" (clauses s') = Some clause1).
Proof.
  pose proof (decide_pending store2 env_d9 "a0" "u1" amendment_a0 clause1
                eq_refl eq_refl eq_refl) as [Ha Hr].
  pose proof (decide_pending store2 env_c1 "a0" "u1" amendment_a0 clause1
                eq_refl eq_refl eq_refl) as [Hb _].
  split; [|split].
  - destruct Ha as (s' & c' & H1 & _ & H3 & H4 & _ & _ & H7 & _).
    exists s', c'. split; [exact H1|]. split; [exact H3|].
    split; [exact H4|]. apply H7. reflexivity.
  - destruct Hb as (s' & c' & H1 & _ & H3 & _ & H5 & _).
    exists s', c'. split; [exact H1|]. split; [exact H3 | exact H5].
  - destruct Hr as (s' & H1 & _ & _ & H4).
    exists s'. split; [exact H1 | exact H4].
Defined.

(** ** The foreign keys hold on every store the router produces *)

Lemma row_exists_In s t x : row_exists s t x = true <-> In x (table_ids s t).
Proof.
  unfold row_exists. rewrite existsb_exists. split.
  - intros [y [Hy E]]. apply String.eqb_eq in E. now subst.
  - intros H. exists x. split; [assumption | apply String.eqb_refl].
Qed.

Lemma integrity_iff s : integrity s = true <-> references_resolve s.
Proof.
  unfold integrity, references_resolve, fk_holds. rewrite forallb_forall. split.
  - intros H k x Hx. apply row_exists_In.
    specialize (H k (foreign_keys_complete k)).
    rewrite forallb_forall in H. auto.
  - intros H k _. apply forallb_forall. intros x Hx.
    apply row_exists_In. auto.
Qed.

Lemma map_snoc {A B : Type} (f : A -> B) l a x :
  In x (map f (l ++ [a])) -> In x (map f l) \/ x = f a.
Proof.
  rewrite map_app, in_app_iff. simpl. intuition.
Qed.

Lemma In_map_snoc {A B : Type} (f : A -> B) l a x :
  In x (map f l) -> In x (map f (l ++ [a])).
Proof.
  rewrite map_app, in_app_iff. auto.
Qed.

Lemma add_amendment_resolves s a :
  references_resolve s ->
  In (Amendment.clauseId a) (map Clause.id (clauses s)) ->
  In (Amendment.userId a) (map User.id (users s)) ->
  references_resolve (set_amendments s (amendments s ++ [a])).
Proof.
  intros H Hc Hu k x. pose proof (H k x) as Hk.
  destruct k; simpl in *; try exact Hk;
    intros Hx; apply map_snoc in Hx; destruct Hx as [Hx|Hx];
    solve [ subst; assumption | exact (Hk Hx) ].
Qed.

Lemma add_clause_resolves s c :
  references_resolve s ->
  In (Clause.contractId c) (map Contract.id (contracts s)) ->
  In (Clause.userId c) (map User.id (users s)) ->
  references_resolve (set_clauses s (clauses s ++ [c])).
Proof.
  intros H Hc Hu k x. pose proof (H k x) as Hk.
  destruct k; simpl in *; try exact Hk.
  - intros Hx; apply map_snoc in Hx; destruct Hx as [Hx|Hx];
      [exact (Hk Hx) | subst; assumption].
  - intros Hx; apply map_snoc in Hx; destruct Hx as [Hx|Hx];
      [exact (Hk Hx) | subst; assumption].
  - intros Hx. apply In_map_snoc. exact (Hk Hx).
Qed.

Lemma add_contract_resolves s c :
  references_resolve s ->
  In (Contract.cohortId c) (map Cohort.id (cohorts s)) ->
  references_resolve (set_contracts s (contracts s ++ [c])).
Proof.
  intros H Hc k x. pose proof (H k x) as Hk.
  destruct k; simpl in *; try exact Hk;
    try (intros Hx; apply In_map_snoc; exact (Hk Hx)).
  intros Hx; apply map_snoc in Hx; destruct Hx as [Hx|Hx];
    [exact (Hk Hx) | subst; assumption].
Qed.

Lemma map_update_id {R B : Type} (rid : R -> string) (p : R -> B) x f l :
  (forall r, p (f r) = p r) -> map p (update_id rid x f l) = map p l.
Proof.
  intros Hp. unfold update_id. rewrite map_map. apply map_ext.
  intros r. destruct (String.eqb (rid r) x); auto.
Qed.

Lemma retitle_contract_resolves s x f :
  (forall c, Contract.id (f c) = Contract.id c) ->
  (forall c, Contract.cohortId (f c) = Contract.cohortId c) ->
  references_resolve s ->
  references_resolve (set_contracts s (update_id Contract.id x f (contracts s))).
Proof.
  intros H1 H2 H k y. pose proof (H k y) as Hk.
  destruct k; simpl in *;
    rewrite ?(map_update_id Contract.id Contract.id),
      ?(map_update_id Contract.id Contract.cohortId) by assumption;
    exact Hk.
Qed.

Lemma In_map_remove_id {R : Type} (rid : R -> string) x y (l : list R) :
  In y (map rid l) -> y <> x -> In y (map rid (remove_id rid x l)).
Proof.
  unfold remove_id. rewrite !in_map_iff. intros [r [E Hr]] Hne.
  exists r. split; [assumption|]. apply filter_In. split; [assumption|].
  apply negb_true_iff, String.eqb_neq. congruence.
Qed.

Lemma In_map_filter {A B : Type} (p : A -> B) (f : A -> bool) l y :
  In y (map p (filter f l)) -> In y (map p l).
Proof.
  rewrite !in_map_iff. intros [r [E Hr]]. apply filter_In in Hr.
  exists r. tauto.
Qed.

Lemma unreferenced_neq s k x y :
  referenced s k x = false -> In y (fk_values s k) -> y <> x.
Proof.
  unfold referenced. intros H Hy E. subst y.
  assert (existsb (String.eqb x) (fk_values s k) = true); [|congruence].
  apply existsb_exists. exists x. split; [assumption | apply String.eqb_refl].
Qed.

Lemma remove_contract_resolves s x :
  contract_dependents s x = false ->
  references_resolve s ->
  references_resolve (set_contracts s (remove_id Contract.id x (contracts s))).
Proof.
  unfold contract_dependents. intros Hd H.
  apply orb_false_elim in Hd. destruct Hd as [Hd H4].
  apply orb_false_elim in Hd. destruct Hd as [Hd H3].
  apply orb_false_elim in Hd. destruct Hd as [H1 H2].
  intros k y. pose proof (H k y) as Hk.
  destruct k; simpl; try exact Hk.
  - intros Hy. apply In_map_filter in Hy. apply (H contracts_cohortId_fkey y Hy).
  - intros Hy. apply In_map_remove_id.
    + apply (H clauses_contractId_fkey y Hy).
    + apply (unreferenced_neq s clauses_contractId_fkey x y H1 Hy).
  - intros Hy. apply In_map_remove_id.
    + apply (H tension_measurements_contractId_fkey y Hy).
    + apply (unreferenced_neq s tension_measurements_contractId_fkey x y H2 Hy).
  - intros Hy. apply In_map_remove_id.
    + apply (H journal_entries_contractId_fkey y Hy).
    + apply (unreferenced_neq s journal_entries_contractId_fkey x y H3 Hy).
  - intros Hy. apply In_map_remove_id.
    + apply (H failure_entries_contractId_fkey y Hy).
    + apply (unreferenced_neq s failure_entries_contractId_fkey x y H4 Hy).
Qed.

Lemma connect_In {R : Type} (rid : R -> string) x (l : list R) r :
  connect rid x l = Ok r -> In x (map rid l).
Proof.
  unfold connect. destruct (find_id rid x l) as [r'|] eqn:E; [|discriminate].
  intros _. apply has_id_In. apply has_id_find_id. eauto.
Qed.

Lemma create_clauses_resolves env contractId l : forall n s s',
  references_resolve s ->
  In contractId (map Contract.id (contracts s)) ->
  create_clauses env contractId n l s = Ok s' ->
  references_resolve s'.
Proof.
  induction l as [|ci l IH]; simpl; intros n s s' H Hc Hs.
  - inversion Hs; subst. exact H.
  - destruct (required (Req.ci_title ci)) as [title|]; simpl in Hs; [|discriminate].
    destruct (required (Req.ci_content ci)) as [text|]; simpl in Hs; [|discriminate].
    destruct (required (Req.ci_userId ci)) as [userId|]; simpl in Hs; [|discriminate].
    destruct (connect User.id userId (users s)) eqn:Hu; simpl in Hs; [|discriminate].
    destruct (fresh Clause.id (cuid env n) (clauses s)); simpl in Hs; [|discriminate].
    apply IH in Hs; [exact Hs | | exact Hc].
    apply add_clause_resolves; [exact H | exact Hc |].
    simpl. apply (connect_In _ _ _ _ Hu).
Qed.

(** Every request leaves a store that satisfies the foreign keys in a state
    that satisfies them. *)
Lemma router_integrity r env s :
  integrity s = true -> integrity (snd (router r env s)) = true.
Proof.
  rewrite !integrity_iff. intros H.
  destruct r as [|b|id|id b|id|id b|id b]; simpl.
  - unfold GET_contracts. destruct (prisma_contract_findMany s); exact H.
  - unfold POST_contracts, prisma_contract_create.
    destruct (required (Req.pc_title b)) as [title|]; simpl; [|exact H].
    destruct (required (Req.pc_cohortId b)) as [cohortId|]; simpl; [|exact H].
    destruct (connect Cohort.id _ (cohorts s)) eqn:Hk; simpl; [|exact H].
    destruct (fresh Contract.id _ (contracts s)); simpl; [|exact H].
    destruct (create_clauses env _ 1 _ _) as [s'|] eqn:Hc; simpl; [|exact H].
    destruct (include_contract _ _ s' _); simpl; [|exact H].
    apply create_clauses_resolves in Hc; [exact Hc | |].
    + apply add_contract_resolves; [exact H|]. simpl.
      apply (connect_In _ _ _ _ Hk).
    + simpl. rewrite map_app, in_app_iff. simpl. auto.
  - rewrite GET_contracts_id_store. exact H.
  - unfold PUT_contracts_id, prisma_contract_update.
    destruct (connect Contract.id id (contracts s)); simpl; [|exact H].
    destruct (include_contract _ _ _ _); simpl; [|exact H].
    apply retitle_contract_resolves; [| |exact H];
      intros c0; destruct (Req.put_title b); reflexivity.
  - unfold DELETE_contracts_id, prisma_contract_delete.
    rewrite sql_delete_contracts.
    destruct (negb (has_id Contract.id id (contracts s))); simpl; [exact H|].
    destruct (contract_dependents s id) eqn:Hd; simpl; [exact H|].
    now apply remove_contract_resolves.
  - unfold POST_contracts_id_clauses, prisma_clause_create.
    destruct (required (Req.title b)); simpl; [|exact H].
    destruct (required (Req.content b)); simpl; [|exact H].
    destruct (required (Req.userId b)); simpl; [|exact H].
    destruct (connect Contract.id id (contracts s)) eqn:Hc; simpl; [|exact H].
    destruct (connect User.id _ (users s)) eqn:Hu; simpl; [|exact H].
    destruct (fresh Clause.id _ (clauses s)); simpl; [|exact H].
    destruct (include_clause _ _ _); simpl; [|exact H].
    apply add_clause_resolves; [exact H | |]; simpl.
    + apply (connect_In _ _ _ _ Hc).
    + apply (connect_In _ _ _ _ Hu).
  - destruct (POST_amend_cases id b env s) as [[j [s' [Hc Hr]]]|[e [_ Hr]]];
      rewrite Hr; simpl; [|exact H].
    apply prisma_amendment_create_Ok in Hc.
    destruct Hc as (text & clauseId & userId & c & u & _ & _ & _ & Hc & Hu & _ & Hs & _).
    rewrite Hs. apply add_amendment_resolves; [exact H | |]; simpl;
      apply has_id_In, has_id_find_id; eauto.
Qed.


(** X1: a store that satisfies the foreign keys of the schema still does
    after any sequence of requests to the router. *)
Theorem serve_keeps_integrity l : forall s,
  integrity s = true -> integrity (serve l s) = true.
Proof.
  induction l as [|[r env] l IH]; simpl; intros s H; [exact H|].
  apply IH. now apply router_integrity.
Qed.

Lemma serve_keeps_integrity_witness :
  integrity
    (serve [(req_POST_contracts_id_amend "ct1" propose_v2, env_a5);
            (req_DELETE_contracts_id "ct2", env_a5);
            (req_POST_contracts_id_amend "ct1" propose_v3, env_b3)] store1)
  = true.
Proof.
  apply (serve_keeps_integrity _ store1). reflexivity.
Defined.

(** ** What a request can answer, and what a failed request leaves *)

Lemma router_failure r env s :
  let (resp, s') := router r env s in
  In (status resp) (statuses r) /\
  (status resp = 404 \/ status resp = 500 ->
   s' = s /\ exists msg, body resp = json_error msg).
Proof.
  destruct r as [|b|id|id b|id|id b|id b]; simpl.
  - unfold GET_contracts. destruct (prisma_contract_findMany s); simpl.
    + split; [auto|]. intros [H|H]; discriminate H.
    + split; [auto|]. intros _. eauto.
  - unfold POST_contracts.
    destruct (prisma_contract_create _ _ _ env s) as [[j s']|e]; simpl.
    + split; [auto|]. intros [H|H]; discriminate H.
    + split; [auto|]. intros _. eauto.
  - unfold GET_contracts_id.
    destruct (prisma_contract_findUnique id s) as [[j|]|e]; simpl.
    + split; [auto|]. intros [H|H]; discriminate H.
    + split; [auto|]. intros _. eauto.
    + split; [auto|]. intros _. eauto.
  - unfold PUT_contracts_id.
    destruct (prisma_contract_update id _ env s) as [[j s']|e]; simpl.
    + split; [auto|]. intros [H|H]; discriminate H.
    + split; [auto|]. intros _. eauto.
  - unfold DELETE_contracts_id.
    destruct (prisma_contract_delete id s) as [s'|e]; simpl.
    + split; [auto|]. intros [H|H]; discriminate H.
    + split; [auto|]. intros _. eauto.
  - unfold POST_contracts_id_clauses.
    destruct (prisma_clause_create _ _ id _ env s) as [[j s']|e]; simpl.
    + split; [auto|]. intros [H|H]; discriminate H.
    + split; [auto|]. intros _. eauto.
  - unfold POST_contracts_id_amend.
    destruct (prisma_amendment_create _ env s) as [[j s']|e]; simpl.
    + split; [auto|]. intros [H|H]; discriminate H.
    + split; [auto|]. intros _. eauto.
Qed.

Lemma router_reads r env s : is_read r = true -> snd (router r env s) = s.
Proof.
  destruct r; simpl; try discriminate; intros _.
  - unfold GET_contracts. destruct (prisma_contract_findMany s); reflexivity.
  - apply GET_contracts_id_store.
Qed.

(** X2: every handler answers with one of the status codes written in it,
    and 404 only comes from [GET /:id]; a request answered with 404 or 500
    has changed nothing in the store and carries an error message; the two
    [GET] handlers never change the store. *)
Theorem router_outcomes r env s :
  In (status (fst (router r env s))) (statuses r) /\
  (status (fst (router r env s)) = 404 ->
   exists id, r = req_GET_contracts_id id) /\
  (status (fst (router r env s)) = 404 \/
   status (fst (router r env s)) = 500 ->
   snd (router r env s) = s /\
   exists msg, body (fst (router r env s)) = json_error msg) /\
  (is_read r = true -> snd (router r env s) = s).
Proof.
  pose proof (router_failure r env s) as H.
  destruct (router r env s) as [resp s'] eqn:E. simpl.
  destruct H as [H1 H2].
  split; [exact H1|]. split; [|split; [exact H2|]].
  - intros H404. rewrite H404 in H1.
    destruct r; simpl in H1;
      try (exfalso; repeat (destruct H1 as [H1|H1]; [discriminate H1|]);
           exact H1).
    eauto.
  - intros Hr. pose proof (router_reads r env s Hr) as Hs.
    rewrite E in Hs. exact Hs.
Qed.

(** A proposal on a missing clause is answered 500 and changes nothing;
    listing the contracts changes nothing. *)
Lemma router_outcomes_witness :
  snd (router (req_POST_contracts_id_amend "ct1" propose_c9) env_a5 store1)
  = store1 /\
  snd (router req_GET_contracts env_a5 store1) = store1.
Proof.
  split.
  - apply (proj1 (proj2 (proj2
             (router_outcomes (req_POST_contracts_id_amend "ct1" propose_c9)
                env_a5 store1)))).
    right. reflexivity.
  - apply (proj2 (proj2 (proj2 (router_outcomes req_GET_contracts env_a5 store1)))).
    reflexivity.
Defined.

(** ** Primary keys stay unique *)

Lemma NoDup_map_snoc {R : Type} (rid : R -> string) (l : list R) a :
  NoDup (map rid l) -> has_id rid (rid a) l = false ->
  NoDup (map rid (l ++ [a])).
Proof.
  intros Hn Hf. rewrite map_app. simpl.
  assert (Hnot : ~ In (rid a) (map rid l)).
  { rewrite <- has_id_In. rewrite Hf. discriminate. }
  clear Hf. induction l as [|r l IH]; simpl in *.
  - constructor; [tauto | constructor].
  - inversion Hn; subst. constructor.
    + rewrite in_app_iff. simpl. intros [H|[H|[]]]; [tauto|].
      apply Hnot. left. congruence.
    + apply IH; [assumption | tauto].
Qed.

Lemma NoDup_map_filter {R : Type} (rid : R -> string) (f : R -> bool) l :
  NoDup (map rid l) -> NoDup (map rid (filter f l)).
Proof.
  induction l as [|r l IH]; simpl; intros H; [constructor|].
  inversion H; subst. destruct (f r); simpl; [|auto].
  constructor; [|auto]. intros Hin. apply In_map_filter in Hin. tauto.
Qed.

Lemma fresh_Ok {R : Type} (rid : R -> string) x (l : list R) u :
  fresh rid x l = Ok u -> has_id rid x l = false.
Proof.
  unfold fresh. destruct (has_id rid x l); [discriminate | reflexivity].
Qed.

Lemma create_clauses_unique env contractId l : forall n s s',
  NoDup (map Clause.id (clauses s)) ->
  create_clauses env contractId n l s = Ok s' ->
  NoDup (map Clause.id (clauses s')).
Proof.
  induction l as [|ci l IH]; simpl; intros n s s' H Hs.
  - inversion Hs; subst. exact H.
  - destruct (required (Req.ci_title ci)) as [title|]; simpl in Hs; [|discriminate].
    destruct (required (Req.ci_content ci)) as [text|]; simpl in Hs; [|discriminate].
    destruct (required (Req.ci_userId ci)) as [userId|]; simpl in Hs; [|discriminate].
    destruct (connect User.id userId (users s)); simpl in Hs; [|discriminate].
    destruct (fresh Clause.id (cuid env n) (clauses s)) eqn:Hf; simpl in Hs;
      [|discriminate].
    apply IH in Hs; [exact Hs|]. simpl.
    apply NoDup_map_snoc; [exact H|]. simpl. now apply fresh_Ok in Hf.
Qed.

Lemma router_unique r env s :
  primary_keys_unique s -> primary_keys_unique (snd (router r env s)).
Proof.
  intros H.
  destruct r as [|b|id|id b|id|id b|id b]; simpl.
  - unfold GET_contracts. destruct (prisma_contract_findMany s); exact H.
  - unfold POST_contracts, prisma_contract_create.
    destruct (required (Req.pc_title b)) as [title|]; simpl; [|exact H].
    destruct (required (Req.pc_cohortId b)) as [cohortId|]; simpl; [|exact H].
    destruct (connect Cohort.id _ (cohorts s)); simpl; [|exact H].
    destruct (fresh Contract.id _ (contracts s)) eqn:Hf; simpl; [|exact H].
    destruct (create_clauses env _ 1 _ _) as [s'|] eqn:Hc; simpl; [|exact H].
    destruct (include_contract _ _ s' _); simpl; [|exact H].
    pose proof (create_clauses_frame _ _ _ _ _ _ Hc) as Hfr.
    apply create_clauses_unique in Hc; [|exact (H tbl_clauses)].
    rewrite Hfr. intros t. pose proof (H t) as Ht.
    destruct t; simpl in *; try exact Ht; [|exact Hc].
    apply NoDup_map_snoc; [exact Ht|]. simpl. now apply fresh_Ok in Hf.
  - rewrite GET_contracts_id_store. exact H.
  - unfold PUT_contracts_id, prisma_contract_update.
    destruct (connect Contract.id id (contracts s)); simpl; [|exact H].
    destruct (include_contract _ _ _ _); simpl; [|exact H].
    intros t. pose proof (H t) as Ht. destruct t; simpl in *; try exact Ht.
    rewrite (map_update_id Contract.id Contract.id); [exact Ht|].
    intros c0. destruct (Req.put_title b); reflexivity.
  - unfold DELETE_contracts_id, prisma_contract_delete.
    rewrite sql_delete_contracts.
    destruct (negb (has_id Contract.id id (contracts s))); simpl; [exact H|].
    destruct (contract_dependents s id); simpl; [exact H|].
    intros t. pose proof (H t) as Ht. destruct t; simpl in *; try exact Ht.
    now apply NoDup_map_filter.
  - unfold POST_contracts_id_clauses, prisma_clause_create.
    destruct (required (Req.title b)); simpl; [|exact H].
    destruct (required (Req.content b)); simpl; [|exact H].
    destruct (required (Req.userId b)); simpl; [|exact H].
    destruct (connect Contract.id id (contracts s)); simpl; [|exact H].
    destruct (connect User.id _ (users s)); simpl; [|exact H].
    destruct (fresh Clause.id _ (clauses s)) eqn:Hf; simpl; [|exact H].
    destruct (include_clause _ _ _); simpl; [|exact H].
    intros t. pose proof (H t) as Ht. destruct t; simpl in *; try exact Ht.
    apply NoDup_map_snoc; [exact Ht|]. simpl. now apply fresh_Ok in Hf.
  - destruct (POST_amend_cases id b env s) as [[j [s' [Hc Hr]]]|[e [_ Hr]]];
      rewrite Hr; simpl; [|exact H].
    apply prisma_amendment_create_Ok in Hc.
    destruct Hc as (text & clauseId & userId & c & u & _ & _ & _ & _ & _ & Hf & Hs & _).
    rewrite Hs. intros t. pose proof (H t) as Ht.
    destruct t; simpl in *; try exact Ht.
    apply NoDup_map_snoc; [exact Ht | exact Hf].
Qed.

(** X3: when no two rows of a table share their id, this is still so after
    any sequence of requests to the router: an insert whose drawn identifier
    is taken is refused. *)
Theorem serve_keeps_primary_keys l : forall s,
  primary_keys_unique s -> primary_keys_unique (serve l s).
Proof.
  induction l as [|[r env] l IH]; simpl; intros s H; [exact H|].
  apply IH. now apply router_unique.
Qed.

Lemma store1_primary_keys : primary_keys_unique store1.
Proof.
  intros t. destruct t; simpl; repeat constructor; simpl;
    intuition discriminate.
Qed.

(** The second proposal draws the identifier of the first and is refused:
    one amendment is stored, and the keys are unique. *)
Lemma serve_keeps_primary_keys_witness :
  primary_keys_unique
    (serve [(req_POST_contracts_id_amend "ct1" propose_v2, env_a5);
            (req_POST_contracts_id_amend "ct1" propose_v3, env_a5)] store1) /\
  map Amendment.id
    (amendments
       (serve [(req_POST_contracts_id_amend "ct1" propose_v2, env_a5);
               (req_POST_contracts_id_amend "ct1" propose_v3, env_a5)] store1))
  = ["a0"].
Proof.
  split; [|reflexivity].
  apply (serve_keeps_primary_keys _ store1). exact store1_primary_keys.
Defined.

(** ** The three shapes of an included contract *)

Lemma include_user_Ok s x j :
  include_user s x = Ok j ->
  exists u, find_id User.id x (users s) = Some u /\ j = select_user u.
Proof.
  unfold include_user, related.
  destruct (find_id User.id x (users s)) as [u|]; simpl; [|discriminate].
  intros H. inversion H. eauto.
Qed.

Lemma amendment_with_proposedBy_proposer s a j :
  amendment_with_proposedBy s a = Ok j ->
  exists u, find_id User.id (Amendment.userId a) (users s) = Some u /\
            Json.proposedBy j = Some (select_user u).
Proof.
  unfold amendment_with_proposedBy.
  destruct (include_user s (Amendment.userId a)) as [us|] eqn:E; simpl;
    [|discriminate].
  intros H. inversion H; subst. simpl.
  apply include_user_Ok in E. destruct E as [u [E1 E2]]. subst. eauto.
Qed.

Lemma include_clause_Ok i s c j :
  include_clause i s c = Ok j -> Json.clause j = c /\ clause_shape i s j.
Proof.
  unfold include_clause, clause_shape.
  destruct (include_user s (Clause.userId c)) as [us|] eqn:E; simpl;
    [|discriminate].
  apply include_user_Ok in E. destruct E as [u [E1 E2]]. subst us.
  destruct i.
  - intros H. inversion H; subst; simpl. eauto.
  - intros H. inversion H; subst; simpl. eauto.
  - destruct (mapM (amendment_with_proposedBy s) (amendments_of s (Clause.id c)))
      as [l|e] eqn:Hl; simpl; [|discriminate].
    intros H. inversion H; subst; clear H. simpl.
    split; [reflexivity|]. split; [eauto|].
    exists l. split; [reflexivity|].
    apply mapM_Forall2 in Hl. split.
    + apply (Forall2_proj _ Json.amendment _ _
               (amendment_with_proposedBy_Ok s) Hl).
    + apply Forall_forall. intros a Ha.
      destruct (Forall2_In_r _ _ _ a Hl Ha) as [a0 [_ H0]].
      pose proof (amendment_with_proposedBy_Ok s a0 a H0) as Ea.
      apply amendment_with_proposedBy_proposer in H0. now rewrite Ea.
Qed.

Lemma include_clause_total i s c :
  integrity s = true -> In c (clauses s) ->
  exists j, include_clause i s c = Ok j.
Proof.
  intros Hi Hc. destruct (clause_author s c Hi Hc) as [u Hu].
  unfold include_clause, include_user, related. rewrite Hu. simpl.
  destruct i; eauto.
  destruct (mapM_total (amendment_with_proposedBy s)
              (amendments_of s (Clause.id c))) as [l Hl].
  - intros a Ha. apply amendments_of_In in Ha.
    apply amendment_with_proposedBy_total; tauto.
  - rewrite Hl. simpl. eauto.
Qed.

Lemma include_contract_Ok i m s c j :
  include_contract i m s c = Ok j ->
  Json.contract j = c /\ contract_shape i m s j.
Proof.
  unfold include_contract, contract_shape.
  destruct (mapM (include_clause i s) (clauses_of s (Contract.id c)))
    as [cl|] eqn:Hcl; simpl; [|discriminate].
  unfold include_cohort, related.
  destruct (find_id Cohort.id (Contract.cohortId c) (cohorts s)) as [k|] eqn:Hk;
    simpl; [|discriminate].
  intros H. inversion H; subst; clear H. simpl.
  apply mapM_Forall2 in Hcl.
  split; [reflexivity|]. split; [|split; [|split]].
  - apply (Forall2_proj _ Json.clause _ _
             (fun a b H => proj1 (include_clause_Ok i s a b H)) Hcl).
  - apply Forall_forall. intros cj Hcj.
    destruct (Forall2_In_r _ _ _ cj Hcl Hcj) as [c0 [_ H0]].
    apply (include_clause_Ok i s c0 cj H0).
  - exact Hk.
  - destruct m; [|reflexivity].
    apply find_id_In in Hk. destruct Hk as [_ Hk]. now rewrite Hk.
Qed.

Lemma include_contract_total i m s c :
  integrity s = true ->
  has_id Cohort.id (Contract.cohortId c) (cohorts s) = true ->
  exists j, include_contract i m s c = Ok j.
Proof.
  intros Hi Hk. unfold include_contract.
  destruct (mapM_total (include_clause i s) (clauses_of s (Contract.id c)))
    as [cl Hcl].
  { intros c0 H0. apply clauses_of_In in H0.
    apply include_clause_total; tauto. }
  rewrite Hcl. simpl.
  apply has_id_find_id in Hk. destruct Hk as [k Hk].
  unfold include_cohort, related. rewrite Hk. simpl. eauto.
Qed.

Lemma contract_cohort_exists s c :
  integrity s = true -> In c (contracts s) ->
  has_id Cohort.id (Contract.cohortId c) (cohorts s) = true.
Proof.
  intros Hi Hc. apply has_id_find_id. now apply contract_cohort.
Qed.

(** ** Listing the contracts: [GET /] *)



(** ** The users shown by [GET /:id] *)




(** ** Adding a clause: [POST /:id/clauses] *)

Lemma prisma_clause_create_Ok title content contractId userId env s j s' :
  prisma_clause_create title content contractId userId env s = Ok (j, s') ->
  exists t text uid k u,
    title = Some t /\ content = Some text /\ userId = Some uid /\
    find_id Contract.id contractId (contracts s) = Some k /\
    find_id User.id uid (users s) = Some u /\
    has_id Clause.id (cuid env 0) (clauses s) = false /\
    let c := Clause.mk (cuid env 0) t text contractId uid (now env) (now env) in
    s' = set_clauses s (clauses s ++ [c]) /\
    j = Json.mkClause c None (select_user u).
Proof.
  unfold prisma_clause_create.
  destruct title as [t|]; simpl; [|discriminate].
  destruct content as [text|]; simpl; [|discriminate].
  destruct userId as [uid|]; simpl; [|discriminate].
  unfold connect.
  destruct (find_id Contract.id contractId (contracts s)) as [k|] eqn:Hk; simpl;
    [|discriminate].
  destruct (find_id User.id uid (users s)) as [u|] eqn:Hu; simpl;
    [|discriminate].
  unfold fresh.
  destruct (has_id Clause.id (cuid env 0) (clauses s)) eqn:Hf; simpl;
    [discriminate|].
  unfold include_clause, include_user, related; simpl. rewrite Hu; simpl.
  intros H. inversion H; subst; clear H.
  exists t, text, uid, k, u. repeat split; reflexivity || assumption.
Qed.

Lemma prisma_clause_create_succeeds t text contractId uid env s k u :
  find_id Contract.id contractId (contracts s) = Some k ->
  find_id User.id uid (users s) = Some u ->
  has_id Clause.id (cuid env 0) (clauses s) = false ->
  let c := Clause.mk (cuid env 0) t text contractId uid (now env) (now env) in
  prisma_clause_create (Some t) (Some text) contractId (Some uid) env s =
  Ok (Json.mkClause c None (select_user u), set_clauses s (clauses s ++ [c])).
Proof.
  intros Hk Hu Hf. unfold prisma_clause_create. simpl.
  unfold connect. rewrite Hk, Hu; simpl. unfold fresh. rewrite Hf; simpl.
  unfold include_clause, include_user, related; simpl. rewrite Hu; reflexivity.
Qed.

(** X6: [POST /:id/clauses] answers 201 exactly when the body has a title,
    a content and a [userId] that names a user, the path id names a
    contract, and the drawn identifier is not taken; it then appends one
    clause, attached to the contract of the path, with the body's title,
    content and author and both timestamps at the clock reading, and sends
    that clause with its author's summary. In every other case it answers
    500 and the store is unchanged. *)
Theorem add_clause id b env s :
  (status (fst (POST_contracts_id_clauses id b env s)) = 201 <->
   Req.title b <> None /\ Req.content b <> None /\
   has_id Contract.id id (contracts s) = true /\
   resolves User.id (Req.userId b) (users s) = true /\
   has_id Clause.id (cuid env 0) (clauses s) = false) /\
  (forall j s',
     POST_contracts_id_clauses id b env s =
     (mkResponse 201 (json_clause j), s') ->
     s' = set_clauses s (clauses s ++ [Json.clause j]) /\
     Clause.id (Json.clause j) = cuid env 0 /\
     Clause.contractId (Json.clause j) = id /\
     Req.title b = Some (Clause.title (Json.clause j)) /\
     Req.content b = Some (Clause.content (Json.clause j)) /\
     Req.userId b = Some (Clause.userId (Json.clause j)) /\
     Clause.createdAt (Json.clause j) = now env /\
     Clause.updatedAt (Json.clause j) = now env /\
     Json.amendments j = None /\
     option_map select_user
       (find_id User.id (Clause.userId (Json.clause j)) (users s)) =
     Some (Json.createdBy j)) /\
  (status (fst (POST_contracts_id_clauses id b env s)) <> 201 ->
   POST_contracts_id_clauses id b env s =
   (mkResponse 500 (json_error "Failed to add clause"), s)).
Proof.
  unfold POST_contracts_id_clauses.
  destruct (prisma_clause_create (Req.title b) (Req.content b) id
              (Req.userId b) env s) as [[j s']|e] eqn:Hc.
  - pose proof (prisma_clause_create_Ok _ _ _ _ _ _ _ _ Hc) as H.
    destruct H as (t & text & uid & k & u & H1 & H2 & H3 & Hk & Hu & Hf & Hs & Hj).
    split; [|split].
    + simpl. split; [intros _|reflexivity].
      rewrite H1, H2, H3. simpl.
      repeat split; try discriminate; try assumption;
        apply has_id_find_id; eauto.
    + intros j0 s0 H. inversion H; subst j0 s0.
      rewrite Hj. simpl. rewrite Hu. simpl. repeat split; assumption.
    + simpl. intros H. congruence.
  - split; [|split].
    + simpl. split; [discriminate|].
      intros (H1 & H2 & Hk & Hu & Hf). exfalso.
      destruct (Req.title b) as [t|]; [|congruence].
      destruct (Req.content b) as [text|]; [|congruence].
      destruct (Req.userId b) as [uid|]; [|discriminate Hu].
      simpl in Hu. apply has_id_find_id in Hk, Hu.
      destruct Hk as [k Hk]. destruct Hu as [u Hu].
      rewrite (prisma_clause_create_succeeds t text id uid env s k u Hk Hu Hf)
        in Hc.
      discriminate Hc.
    + intros j s' H. discriminate H.
    + reflexivity.
Qed.

(** A clause is added under the clause-less contract [ct2]; under a path
    that names no contract the same body is refused. *)
Lemma add_clause_witness :
  status (fst (POST_contracts_id_clauses "ct2" new_clause env_a5 store1)) = 201 /\
  POST_contracts_id_clauses "zz" new_clause env_a5 store1 =
  (mkResponse 500 (json_error "Failed to add clause"), store1).
Proof.
  split.
  - apply (proj1 (add_clause "ct2" new_clause env_a5 store1)).
    repeat split; discriminate.
  - apply (proj2 (proj2 (add_clause "zz" new_clause env_a5 store1))).
    discriminate.
Defined.

(** ** Renaming a contract: [PUT /:id] *)

Lemma connect_missing {R : Type} (rid : R -> string) x (l : list R) :
  has_id rid x l = false -> connect rid x l = Err P2025_record_not_found.
Proof.
  intros H. apply has_id_false_find_id in H. unfold connect. now rewrite H.
Qed.

(** X7: [PUT /:id] with an id that names no contract answers 500 and
    changes nothing. On a store that satisfies the foreign keys, with an id
    that names a contract and a title in the body, it answers 200 with the
    contract under its new title and with [updatedAt] at the clock reading,
    its id, cohort and creation time kept, and with its clauses; in the
    store that row is found under the id, every other contract is found as
    before, and no other table changes. *)
Theorem update_contract id b env s :
  (has_id Contract.id id (contracts s) = false ->
   PUT_contracts_id id b env s =
   (mkResponse 500 (json_error "Failed to update contract"), s)) /\
  (integrity s = true ->
   forall c t,
     find_id Contract.id id (contracts s) = Some c ->
     Req.put_title b = Some t ->
     exists j s',
       PUT_contracts_id id b env s = (mkResponse 200 (json_contract j), s') /\
       Json.contract j =
       Contract.mk (Contract.id c) t (Contract.cohortId c)
         (Contract.createdAt c) (now env) /\
       map Json.clause (Json.clauses j) = clauses_of s id /\
       find_id Contract.id id (contracts s') = Some (Json.contract j) /\
       (forall y, y <> id ->
          find_id Contract.id y (contracts s') =
          find_id Contract.id y (contracts s)) /\
       map Contract.id (contracts s') = map Contract.id (contracts s) /\
       s' = set_contracts s (contracts s')).
Proof.
  split.
  - intros H. unfold PUT_contracts_id, prisma_contract_update.
    rewrite (connect_missing _ _ _ H). reflexivity.
  - intros Hi c t Hc Ht.
    destruct (find_id_In _ _ _ _ Hc) as [Hin Hid].
    unfold PUT_contracts_id, prisma_contract_update, connect.
    rewrite Hc, Ht. cbv beta iota zeta delta [bind].
    set (upd := fun c0 : Contract.t =>
                  Contract.mk (Contract.id c0) t (Contract.cohortId c0)
                    (Contract.createdAt c0) (now env)).
    set (s' := set_contracts s (update_id Contract.id id upd (contracts s))).
    assert (Hi' : integrity s' = true).
    { apply integrity_iff. apply retitle_contract_resolves; try reflexivity.
      now apply integrity_iff. }
    destruct (include_contract_total createdBy_only false s' (upd c) Hi')
      as [j Hj].
    { simpl. now apply contract_cohort_exists. }
    pose proof Hj as Hj'. cbv beta delta [upd] in Hj'.
    rewrite Hj'. exists j, s'. split; [reflexivity|].
    apply include_contract_Ok in Hj. destruct Hj as [Ej [Hcl _]].
    split; [exact Ej|]. split; [|split; [|split; [|split]]].
    + rewrite Hcl, Ej. simpl. now rewrite Hid.
    + simpl. rewrite find_id_update_same, Hc by reflexivity. simpl.
      now rewrite Ej.
    + intros y Hy. simpl. apply find_id_update_other; [reflexivity|].
      congruence.
    + simpl. apply map_update_id. reflexivity.
    + reflexivity.
Qed.

Lemma update_contract_witness :
  PUT_contracts_id "zz" new_title env_d9 store1 =
  (mkResponse 500 (json_error "Failed to update contract"), store1) /\
  exists j s',
    PUT_contracts_id "ct2" new_title env_d9 store1 =
    (mkResponse 200 (json_contract j), s') /\
    Contract.title (Json.contract j) = "House rules" /\
    find_id Contract.id "ct1" (contracts s') = Some contract1.
Proof.
  split.
  - apply (proj1 (update_contract "zz" new_title env_d9 store1)). reflexivity.
  - destruct (proj2 (update_contract "ct2" new_title env_d9 store1) eq_refl
                contract2 "House rules" eq_refl eq_refl)
      as (j & s' & H1 & H2 & _ & _ & H5 & _).
    exists j, s'. split; [exact H1|]. split; [now rewrite H2|].
    rewrite H5; [reflexivity | discriminate].
Defined.

(** ** Deleting a contract, then asking for it *)

Lemma has_id_remove_id {R : Type} (rid : R -> string) x (l : list R) :
  has_id rid x (remove_id rid x l) = false.
Proof.
  unfold has_id, remove_id. induction l as [|r l IH]; simpl; [reflexivity|].
  destruct (String.eqb (rid r) x) eqn:E; simpl; [exact IH|].
  now rewrite E.
Qed.

Lemma find_id_remove_other {R : Type} (rid : R -> string) x y (l : list R) :
  y <> x -> find_id rid y (remove_id rid x l) = find_id rid y l.
Proof.
  intros Hne. unfold find_id, remove_id.
  induction l as [|r l IH]; simpl; [reflexivity|].
  destruct (String.eqb (rid r) x) eqn:E; simpl.
  - apply String.eqb_eq in E.
    destruct (String.eqb (rid r) y) eqn:Ey; [|exact IH].
    apply String.eqb_eq in Ey. congruence.
  - destruct (String.eqb (rid r) y); [reflexivity | exact IH].
Qed.

Lemma DELETE_204 id s s' :
  DELETE_contracts_id id s = (mkResponse 204 no_body, s') ->
  has_id Contract.id id (contracts s) = true /\
  contract_dependents s id = false /\
  s' = set_contracts s (remove_id Contract.id id (contracts s)).
Proof.
  unfold DELETE_contracts_id, prisma_contract_delete.
  rewrite sql_delete_contracts.
  destruct (has_id Contract.id id (contracts s)); simpl; [|discriminate].
  destruct (contract_dependents s id); simpl; [discriminate|].
  intros H. inversion H. auto.
Qed.

(** X8: [DELETE /:id] with an id that names no contract answers 500, not
    204 nor 404, and changes nothing. After a delete answered 204, asking
    for the contract gives 404, deleting it again gives 500, and every
    other contract is found as before. *)
Theorem delete_is_not_repeatable id s :
  (has_id Contract.id id (contracts s) = false ->
   DELETE_contracts_id id s =
   (mkResponse 500 (json_error "Failed to delete contract"), s)) /\
  (forall s',
     DELETE_contracts_id id s = (mkResponse 204 no_body, s') ->
     GET_contracts_id id s' =
     (mkResponse 404 (json_error "Contract not found"), s') /\
     DELETE_contracts_id id s' =
     (mkResponse 500 (json_error "Failed to delete contract"), s') /\
     (forall y, y <> id ->
        find_id Contract.id y (contracts s') =
        find_id Contract.id y (contracts s))).
Proof.
  assert (missing : forall s0,
            has_id Contract.id id (contracts s0) = false ->
            DELETE_contracts_id id s0 =
            (mkResponse 500 (json_error "Failed to delete contract"), s0)).
  { intros s0 H. unfold DELETE_contracts_id, prisma_contract_delete.
    rewrite sql_delete_contracts, H. reflexivity. }
  split; [apply missing|].
  intros s' H. apply DELETE_204 in H. destruct H as (_ & _ & Hs).
  assert (Hgone : has_id Contract.id id (contracts s') = false)
    by (rewrite Hs; simpl; apply has_id_remove_id).
  split; [|split].
  - unfold GET_contracts_id, prisma_contract_findUnique.
    apply has_id_false_find_id in Hgone. rewrite Hgone. reflexivity.
  - now apply missing.
  - intros y Hy. rewrite Hs. simpl. now apply find_id_remove_other.
Qed.

Lemma delete_is_not_repeatable_witness :
  DELETE_contracts_id "zz" store1 =
  (mkResponse 500 (json_error "Failed to delete contract"), store1) /\
  status
    (fst (GET_contracts_id "ct2" (snd (DELETE_contracts_id "ct2" store1)))) = 404.
Proof.
  split.
  - apply (proj1 (delete_is_not_repeatable "zz" store1)). reflexivity.
  - destruct (proj2 (delete_is_not_repeatable "ct2" store1)
                (snd (DELETE_contracts_id "ct2" store1)) eq_refl) as [H _].
    now rewrite H.
Defined.

(** ** Writing, then reading back *)

Lemma GET_lists_amendments id s c clauseId :
  integrity s = true ->
  find_id Contract.id id (contracts s) = Some c ->
  has_id Clause.id clauseId (clauses_of s id) = true ->
  listed_amendments (fst (GET_contracts_id id s)) clauseId =
  Some (amendments_of s clauseId).
Proof.
  intros Hi Hc Hx.
  destruct (find_id_In _ _ _ _ Hc) as [Hct Hcid].
  destruct (include_contract_full s c Hi Hct) as [j [Hj [_ [Hcl [Ham _]]]]].
  rewrite Hcid in Hcl.
  rewrite (GET_contracts_id_found id s c j Hc Hj).
  unfold listed_amendments. simpl.
  apply has_id_find_id in Hx. destruct Hx as [c0 Hc0].
  unfold find_id in Hc0. rewrite <- Hcl, find_through_map in Hc0.
  destruct (find (fun b => String.eqb (Clause.id (Json.clause b)) clauseId)
              (Json.clauses j)) as [cj|] eqn:Hf; [|discriminate].
  apply find_map_clause in Hf. destruct Hf as [Hin Hid].
  destruct (Ham cj Hin) as [l [Hl1 Hl2]].
  rewrite Hl1, Hl2, Hid. reflexivity.
Qed.

Lemma clause_contract s c :
  integrity s = true -> In c (clauses s) ->
  exists k, find_id Contract.id (Clause.contractId c) (contracts s) = Some k.
Proof.
  intros Hi Hc. apply has_id_find_id. rewrite <- existsb_eqb_map.
  apply (integrity_related s clauses_contractId_fkey); [assumption|].
  simpl. now apply in_map.
Qed.

Lemma has_id_intro {R : Type} (rid : R -> string) (l : list R) r :
  In r l -> has_id rid (rid r) l = true.
Proof. intros H. apply has_id_In. now apply in_map. Qed.

(** X9: on a store that satisfies the foreign keys, after a proposal
    answered 201, [GET /:id] on the contract that owns the proposal's clause
    lists under that clause the amendments it listed before, followed by
    the new one. *)
Theorem proposal_is_listed id b env s j s' :
  integrity s = true ->
  POST_contracts_id_amend id b env s =
  (mkResponse 201 (json_amendment j), s') ->
  exists c,
    find_id Clause.id (Amendment.clauseId (Json.amendment j)) (clauses s)
    = Some c /\
    listed_amendments (fst (GET_contracts_id (Clause.contractId c) s'))
      (Amendment.clauseId (Json.amendment j)) =
    Some (amendments_of s (Amendment.clauseId (Json.amendment j))
          ++ [Json.amendment j])%list.
Proof.
  intros Hi H.
  assert (Hi' : integrity s' = true).
  { pose proof (router_integrity (req_POST_contracts_id_amend id b) env s Hi)
      as Hr. simpl in Hr. now rewrite H in Hr. }
  destruct (POST_amend_cases id b env s) as [[j0 [s0 [Hc Hr]]]|[e [_ Hr]]];
    rewrite Hr in H; inversion H; subst j0 s0; clear H.
  apply prisma_amendment_create_Ok in Hc.
  destruct Hc as (text & clauseId & userId & c & u & _ & _ & _ & Hc & _ & _ & Hs & Hj).
  rewrite Hj. simpl. exists c. split; [exact Hc|].
  destruct (find_id_In _ _ _ _ Hc) as [Hin Hid].
  destruct (clause_contract s c Hi Hin) as [k Hk].
  rewrite (GET_lists_amendments (Clause.contractId c) s' k clauseId Hi').
  - rewrite Hs. unfold amendments_of. simpl. rewrite filter_app. simpl.
    now rewrite String.eqb_refl.
  - rewrite Hs. exact Hk.
  - rewrite Hs. simpl. rewrite <- Hid. apply has_id_intro.
    apply clauses_of_In. auto.
Qed.

Lemma proposal_is_listed_witness :
  listed_amendments (fst (GET_contracts_id "ct1" store3)) "c1" =
  Some (amendments_of store2 "c1"
        ++ [amendments_row "b0" "v3" "u1" "c1" None env_b3])%list.
Proof.
  destruct (proposal_is_listed "ct1" propose_v3 env_b3 store2
              (Json.mkAmendment (amendments_row "b0" "v3" "u1" "c1" None env_b3)
                 (Some (select_user alice)))
              store3 eq_refl eq_refl) as [c [Hc H]].
  simpl in Hc. inversion Hc; subst c. exact H.
Defined.

Lemma amendments_of_unknown s x :
  integrity s = true -> has_id Clause.id x (clauses s) = false ->
  amendments_of s x = [].
Proof.
  intros Hi Hx. unfold amendments_of.
  destruct (filter _ (amendments s)) as [|a l] eqn:E; [reflexivity|].
  exfalso.
  assert (Ha : In a (filter (fun a => String.eqb (Amendment.clauseId a) x)
                       (amendments s))) by (rewrite E; now left).
  apply filter_In in Ha. destruct Ha as [Ha Ex]. apply String.eqb_eq in Ex.
  assert (Hr : row_exists s tbl_clauses x = true).
  { apply (integrity_related s amendments_clauseId_fkey); [assumption|].
    simpl. rewrite <- Ex. now apply in_map. }
  unfold row_exists in Hr. simpl in Hr. rewrite existsb_eqb_map in Hr.
  congruence.
Qed.

(** X10: on a store that satisfies the foreign keys, after
    [POST /:id/clauses] answered 201, [GET /:id] on the same id answers 200
    and shows the clauses the contract had, followed by the new one, under
    which no amendment is listed. *)
Theorem added_clause_is_listed id b env s j s' :
  integrity s = true ->
  POST_contracts_id_clauses id b env s = (mkResponse 201 (json_clause j), s') ->
  exists jc,
    GET_contracts_id id s' = (mkResponse 200 (json_contract jc), s') /\
    map Json.clause (Json.clauses jc) =
    (clauses_of s id ++ [Json.clause j])%list /\
    listed_amendments (fst (GET_contracts_id id s'))
      (Clause.id (Json.clause j)) = Some [].
Proof.
  intros Hi H.
  assert (Hi' : integrity s' = true).
  { pose proof (router_integrity (req_POST_contracts_id_clauses id b) env s Hi)
      as Hr. simpl in Hr. now rewrite H in Hr. }
  unfold POST_contracts_id_clauses in H.
  destruct (prisma_clause_create _ _ id _ env s) as [[j0 s0]|e] eqn:Hc;
    inversion H; subst j0 s0; clear H.
  apply prisma_clause_create_Ok in Hc.
  destruct Hc as (t & text & uid & k & u & _ & _ & _ & Hk & _ & Hf & Hs & Hj).
  assert (Hk' : find_id Contract.id id (contracts s') = Some k)
    by (rewrite Hs; exact Hk).
  destruct (find_id_In _ _ _ _ Hk') as [Hin Hid].
  destruct (include_contract_total amendments_with_proposedBy true s' k Hi'
              (contract_cohort_exists s' k Hi' Hin)) as [jc Hjc].
  pose proof (GET_contracts_id_found id s' k jc Hk' Hjc) as Hget.
  exists jc. split; [exact Hget|].
  apply include_contract_Ok in Hjc. destruct Hjc as [Ejc [Hcl _]].
  assert (Hnew : clauses_of s' id = (clauses_of s id ++ [Json.clause j])%list).
  { rewrite Hs, Hj. unfold clauses_of. simpl. rewrite filter_app. simpl.
    now rewrite String.eqb_refl. }
  split.
  - rewrite Hcl, Ejc, Hid. exact Hnew.
  - rewrite (GET_lists_amendments id s' k _ Hi' Hk').
    + f_equal. rewrite Hj. simpl.
      assert (E : amendments_of s' (cuid env 0) = amendments_of s (cuid env 0))
        by (rewrite Hs; reflexivity).
      rewrite E. now apply amendments_of_unknown.
    + rewrite Hnew. apply has_id_intro. apply in_app_iff. right. now left.
Qed.

Lemma added_clause_is_listed_witness :
  exists jc,
    GET_contracts_id "ct1"
      (snd (POST_contracts_id_clauses "ct1" new_clause env_a5 store1)) =
    (mkResponse 200 (json_contract jc),
     snd (POST_contracts_id_clauses "ct1" new_clause env_a5 store1)) /\
    map Clause.id (map Json.clause (Json.clauses jc)) = ["c1"; "a0"].
Proof.
  destruct (added_clause_is_listed "ct1" new_clause env_a5 store1
              (Json.mkClause clause_a0 None (select_user alice))
              (snd (POST_contracts_id_clauses "ct1" new_clause env_a5 store1))
              eq_refl eq_refl) as [jc [H1 [H2 _]]].
  exists jc. split; [exact H1|]. rewrite H2. reflexivity.
Defined.

(** ** Creating a contract with its clauses: [POST /] *)

Lemma has_id_app {R : Type} (rid : R -> string) x (l l' : list R) :
  has_id rid x (l ++ l') = has_id rid x l || has_id rid x l'.
Proof. unfold has_id. apply existsb_app. Qed.

Lemma create_clauses_Ok env contractId l : forall n s s',
  create_clauses env contractId n l s = Ok s' ->
  exists new,
    clauses s' = (clauses s ++ new)%list /\
    Forall2 (made_from env contractId) l new /\
    map Clause.id new = map (cuid env) (seq n (length l)) /\
    Forall (fun c => has_id User.id (Clause.userId c) (users s) = true) new /\
    (forall x, In x (map Clause.id new) ->
               has_id Clause.id x (clauses s) = false) /\
    NoDup (map Clause.id new).
Proof.
  induction l as [|ci l IH]; simpl; intros n s s' H.
  - inversion H; subst. exists []. rewrite app_nil_r.
    repeat split; try constructor. intros x [].
  - destruct (Req.ci_title ci) as [title|] eqn:E1; simpl in H; [|discriminate].
    destruct (Req.ci_content ci) as [text|] eqn:E2; simpl in H; [|discriminate].
    destruct (Req.ci_userId ci) as [userId|] eqn:E3; simpl in H; [|discriminate].
    unfold connect in H.
    destruct (find_id User.id userId (users s)) as [u|] eqn:Hu; simpl in H;
      [|discriminate].
    destruct (fresh Clause.id (cuid env n) (clauses s)) eqn:Hf; simpl in H;
      [|discriminate].
    apply fresh_Ok in Hf.
    apply IH in H. destruct H as (new & Hcl & Hm & Hid & Hus & Hfr & Hnd).
    simpl in *.
    eexists (_ :: new). split; [|split; [|split; [|split; [|split]]]].
    + rewrite Hcl, <- app_assoc. reflexivity.
    + constructor; [|exact Hm]. unfold made_from. simpl.
      rewrite E1, E2, E3. repeat split; reflexivity.
    + simpl. now rewrite Hid.
    + constructor; [|exact Hus]. simpl. apply has_id_find_id. eauto.
    + simpl. intros x [Hx|Hx]; [now subst x|].
      apply Hfr in Hx. rewrite has_id_app in Hx.
      now apply orb_false_elim in Hx.
    + simpl. constructor; [|exact Hnd]. intros Hin.
      apply Hfr in Hin. rewrite has_id_app in Hin.
      apply orb_false_elim in Hin. destruct Hin as [_ Hin].
      unfold has_id in Hin. simpl in Hin.
      now rewrite String.eqb_refl in Hin.
Qed.

Lemma clauses_of_unknown s x :
  integrity s = true -> has_id Contract.id x (contracts s) = false ->
  clauses_of s x = [].
Proof.
  intros Hi Hx. unfold clauses_of.
  destruct (filter _ (clauses s)) as [|c l] eqn:E; [reflexivity|].
  exfalso.
  assert (Hc : In c (filter (fun c => String.eqb (Clause.contractId c) x)
                       (clauses s))) by (rewrite E; now left).
  apply filter_In in Hc. destruct Hc as [Hc Ex]. apply String.eqb_eq in Ex.
  assert (Hr : row_exists s tbl_contracts x = true).
  { apply (integrity_related s clauses_contractId_fkey); [assumption|].
    simpl. rewrite <- Ex. now apply in_map. }
  rewrite contracts_row_exists in Hr. congruence.
Qed.

Lemma filter_all {A : Type} (f : A -> bool) l :
  Forall (fun a => f a = true) l -> filter f l = l.
Proof.
  induction 1 as [|a l Ha _ IH]; simpl; [reflexivity|].
  now rewrite Ha, IH.
Qed.

(** X11: when [POST /] answers 201, the store has one more contract, at
    the end of its table, with the body's title and cohort (which exists),
    an identifier no contract had and both timestamps at the clock reading;
    it has one more clause per item of the body's [clauses], none when the
    field is absent, in the reverse of the body's order, each attached to
    the new contract with its item's title, content and author, under
    identifiers that are pairwise distinct and that no clause had; nothing
    else has changed. On a store that satisfies the foreign keys, the
    clauses sent back are exactly these new rows, in that order. *)
Theorem create_contract b env s j s' :
  POST_contracts b env s = (mkResponse 201 (json_contract j), s') ->
  exists new,
    contracts s' = (contracts s ++ [Json.contract j])%list /\
    clauses s' = (clauses s ++ new)%list /\
    s' = set_clauses (set_contracts s (contracts s')) (clauses s') /\
    Req.pc_title b = Some (Contract.title (Json.contract j)) /\
    Req.pc_cohortId b = Some (Contract.cohortId (Json.contract j)) /\
    Contract.createdAt (Json.contract j) = now env /\
    Contract.updatedAt (Json.contract j) = now env /\
    has_id Cohort.id (Contract.cohortId (Json.contract j)) (cohorts s) = true /\
    has_id Contract.id (Contract.id (Json.contract j)) (contracts s) = false /\
    Forall2 (made_from env (Contract.id (Json.contract j)))
      (rev (match Req.pc_clauses b with Some l => l | None => [] end)) new /\
    (forall x, In x (map Clause.id new) ->
               has_id Clause.id x (clauses s) = false) /\
    NoDup (map Clause.id new) /\
    (integrity s = true -> map Json.clause (Json.clauses j) = new).
Proof.
  unfold POST_contracts, prisma_contract_create.
  destruct (Req.pc_title b) as [title|]; simpl; [|discriminate].
  destruct (Req.pc_cohortId b) as [cohortId|]; simpl; [|discriminate].
  unfold connect.
  destruct (find_id Cohort.id cohortId (cohorts s)) as [k|] eqn:Hk; simpl;
    [|discriminate].
  destruct (fresh Contract.id (cuid env 0) (contracts s)) eqn:Hf; simpl;
    [|discriminate].
  apply fresh_Ok in Hf.
  set (c := Contract.mk (cuid env 0) title cohortId (now env) (now env)).
  destruct (create_clauses env (cuid env 0) 1 _ _) as [s1|] eqn:Hc; simpl;
    [|discriminate].
  destruct (include_contract createdBy_only false s1 c) as [j1|] eqn:Hj; simpl;
    [|discriminate].
  intros H. inversion H; subst j1 s1; clear H.
  pose proof (create_clauses_frame _ _ _ _ _ _ Hc) as Hfr.
  apply create_clauses_Ok in Hc.
  destruct Hc as (new & Hcl & Hm & _ & _ & Hnew & Hnd).
  simpl in Hcl, Hnew.
  apply include_contract_Ok in Hj. destruct Hj as [Ej [Hjc _]].
  assert (Hct : contracts s' = (contracts s ++ [c])%list)
    by (rewrite Hfr; reflexivity).
  exists new. rewrite Ej.
  split; [exact Hct|]. split; [exact Hcl|]. split.
  { rewrite Hfr at 1. rewrite Hct. simpl. reflexivity. }
  repeat (split; [reflexivity|]).
  split; [apply has_id_find_id; eauto|]. split; [exact Hf|].
  split; [exact Hm|]. split; [exact Hnew|]. split; [exact Hnd|].
  intros Hi. rewrite Hjc, Ej. simpl.
  unfold clauses_of. rewrite Hcl, filter_app.
  fold (clauses_of s (cuid env 0)).
  rewrite (clauses_of_unknown s _ Hi Hf). simpl.
  apply filter_all. clear -Hm.
  induction Hm as [|ci c0 l new H _ IH]; constructor; [|exact IH].
  destruct H as (_ & _ & _ & H & _). rewrite H. apply String.eqb_refl.
Qed.

(** Creating [new_contract], whose clauses are "Rotation" then "Reviews",
    on [store1] adds the contract and both clauses, "Reviews" first, and
    sends them back in that order. *)
Lemma create_contract_witness :
  exists j s' new,
    POST_contracts new_contract env_a5 store1 =
    (mkResponse 201 (json_contract j), s') /\
    length (contracts s') = 3 /\
    clauses s' = (clauses store1 ++ new)%list /\
    map Clause.title new = ["Reviews"; "Rotation"] /\
    map Json.clause (Json.clauses j) = new.
Proof.
  assert (E : exists j s',
            POST_contracts new_contract env_a5 store1 =
            (mkResponse 201 (json_contract j), s'))
    by (eexists; eexists; reflexivity).
  destruct E as [j [s' E]].
  destruct (create_contract new_contract env_a5 store1 j s' E) as
    (new & H1 & H2 & _ & _ & _ & _ & _ & _ & _ & H3 & _ & _ & H4).
  exists j, s', new. split; [exact E|].
  split; [now rewrite H1, length_app|].
  split; [exact H2|]. split; [|apply H4; reflexivity].
  simpl in H3.
  inversion H3 as [|ci1 c1 l1 new1 M1 T1]; subst.
  inversion T1 as [|ci2 c2 l2 new2 M2 T2]; subst.
  inversion T2; subst.
  destruct M1 as [M1 _]. destruct M2 as [M2 _]. simpl in M1, M2.
  simpl. congruence.
Defined.

(** ** Deletes under the referential actions keep the foreign keys *)

Lemma restricts_none s t x k :
  existsb (restricts s t x) foreign_keys = false ->
  fk_references k = t -> fk_on_delete k = RESTRICT ->
  referenced s k x = false.
Proof.
  intros H Ht Hr.
  destruct (referenced s k x) eqn:E; [|reflexivity].
  assert (Hk : existsb (restricts s t x) foreign_keys = true); [|congruence].
  apply existsb_exists. exists k. split; [apply foreign_keys_complete|].
  unfold restricts. rewrite Ht, Hr, E. destruct t; reflexivity.
Qed.

Lemma In_map_remove_id_neq {R : Type} (rid : R -> string) x y (l : list R) :
  In y (map rid (remove_id rid x l)) -> y <> x.
Proof.
  unfold remove_id. rewrite in_map_iff. intros [r [E Hr]].
  apply filter_In in Hr. destruct Hr as [_ Hr].
  apply negb_true_iff, String.eqb_neq in Hr. congruence.
Qed.

Lemma row_gone {R : Type} (rid : R -> string) x (l : list R) :
  existsb (String.eqb x) (map rid (remove_id rid x l)) = false.
Proof. rewrite existsb_eqb_map. apply has_id_remove_id. Qed.

(** X12: for every table of the schema, a [DELETE ... WHERE id = x] that
    is not refused leaves a store that satisfies the foreign keys if the
    store did before: rows that a RESTRICT key protects are not deleted,
    and the membership rows of a deleted cohort or user go with it. After
    it no row of the table has the id, and when no row had it nothing
    changes. *)
Theorem sql_delete_keeps_integrity t x s n s' :
  integrity s = true ->
  sql_delete t x s = Ok (n, s') ->
  integrity s' = true /\
  row_exists s' t x = false /\
  (row_exists s t x = false -> n = 0 /\ s' = s) /\
  (row_exists s t x = true -> n = 1).
Proof.
  intros Hi H. unfold sql_delete in H.
  destruct (row_exists s t x) eqn:He; cbv beta iota delta [negb] in H.
  - destruct (existsb (restricts s t x) foreign_keys) eqn:Hr; [discriminate|].
    inversion H; subst n s'; clear H.
    split; [|split; [|split; [intros E; discriminate E | intros _; reflexivity]]].
    + apply integrity_iff. apply integrity_iff in Hi.
      intros k y.
      pose proof (Hi k y) as Hk.
      pose proof (restricts_none s t x k Hr) as Rk.
      pose proof (unreferenced_neq s k x y) as Nk.
      destruct t; destruct k; simpl in *;
        first
          [ exact Hk
          | intros Hy; apply In_map_filter in Hy; exact (Hk Hy)
          | intros Hy; apply In_map_remove_id;
            [exact (Hk Hy) | exact (Nk (Rk eq_refl eq_refl) Hy)]
          | intros Hy; pose proof (In_map_remove_id_neq _ _ _ _ Hy) as Hne;
            apply In_map_filter in Hy; apply In_map_remove_id;
            [exact (Hk Hy) | exact Hne] ].
    + destruct t; simpl; try apply row_gone. reflexivity.
  - inversion H; subst n s'; clear H.
    split; [exact Hi|]. split; [exact He|].
    split; [auto | intros E; discriminate E].
Qed.

(** Deleting user [u1] from [store5], where only a membership row refers
    to it, goes through and takes the membership row along. *)
Lemma sql_delete_keeps_integrity_witness :
  exists s',
    sql_delete tbl_users "u1" store5 = Ok (1, s') /\
    integrity s' = true /\ CohortMembers s' = [].
Proof.
  eexists. split; [reflexivity|]. split; [|reflexivity].
  eapply (proj1 (sql_delete_keeps_integrity tbl_users "u1" store5 1 _ eq_refl _)).
  Unshelve. reflexivity.
Defined.

(** ** A contract is created with all its clauses or not at all *)

Lemma create_clauses_users env contractId l : forall n s s',
  create_clauses env contractId n l s = Ok s' -> users s' = users s.
Proof.
  intros n s s' H. apply create_clauses_frame in H. rewrite H. reflexivity.
Qed.

Lemma existsb_rev {A : Type} (f : A -> bool) l :
  existsb f (rev l) = existsb f l.
Proof.
  induction l as [|a l IH]; simpl; [reflexivity|].
  rewrite existsb_app, IH. simpl. rewrite orb_false_r. apply orb_comm.
Qed.

Lemma create_clauses_unwritable env contractId l : forall n s,
  existsb (unwritable s) l = true ->
  exists e, create_clauses env contractId n l s = Err e.
Proof.
  induction l as [|ci l IH]; simpl; intros n s H; [discriminate|].
  unfold unwritable in H at 1.
  destruct (Req.ci_title ci) as [title|]; simpl; [|eauto].
  destruct (Req.ci_content ci) as [text|]; simpl; [|eauto].
  destruct (Req.ci_userId ci) as [userId|]; simpl; [|eauto].
  unfold connect. simpl in H.
  destruct (find_id User.id userId (users s)) as [u|] eqn:Hu; simpl; [|eauto].
  assert (Hh : has_id User.id userId (users s) = true)
    by (apply has_id_find_id; eauto).
  rewrite Hh in H. simpl in H.
  destruct (fresh Clause.id (cuid env n) (clauses s)); simpl; [|eauto].
  apply IH. exact H.
Qed.

(** X13: [POST /] stores nothing unless everything can be stored. When the
    title or the cohort id is missing, the cohort does not exist, or some
    item of [clauses] lacks a title or a content or names no existing
    author, the answer is 500 and the store is unchanged: the contract is
    not kept without its clauses. *)
Theorem create_contract_all_or_nothing b env s :
  Req.pc_title b = None \/
  resolves Cohort.id (Req.pc_cohortId b) (cohorts s) = false \/
  existsb (unwritable s)
    (match Req.pc_clauses b with Some l => l | None => [] end) = true ->
  POST_contracts b env s =
  (mkResponse 500 (json_error "Failed to create contract"), s).
Proof.
  intros H. unfold POST_contracts, prisma_contract_create.
  destruct (Req.pc_title b) as [title|]; simpl; [|reflexivity].
  destruct (Req.pc_cohortId b) as [cohortId|]; simpl; [|reflexivity].
  unfold connect.
  destruct (find_id Cohort.id cohortId (cohorts s)) as [k|] eqn:Hk; simpl;
    [|reflexivity].
  destruct (fresh Contract.id (cuid env 0) (contracts s)); simpl; [|reflexivity].
  destruct H as [H|[H|H]].
  - discriminate H.
  - simpl in H. apply has_id_false_find_id in H. congruence.
  - rewrite <- existsb_rev in H.
    destruct (create_clauses_unwritable env (cuid env 0)
                (rev (match Req.pc_clauses b with Some l => l | None => [] end)) 1
                (set_contracts s
                   (contracts s ++
                    [Contract.mk (cuid env 0) title cohortId (now env) (now env)]))
                H) as [e He].
    rewrite He. reflexivity.
Qed.

(** The second clause of [bad_contract] names user [u7], who does not
    exist: neither the contract nor its first clause is stored. *)
Lemma create_contract_all_or_nothing_witness :
  POST_contracts bad_contract env_a5 store1 =
  (mkResponse 500 (json_error "Failed to create contract"), store1).
Proof.
  apply (create_contract_all_or_nothing bad_contract env_a5 store1).
  right. right. reflexivity.
Defined.

(** ** What the router never touches *)

Lemma router_frame r env s :
  let s' := snd (router r env s) in
  users s' = users s /\
  cohorts s' = cohorts s /\
  tension_measurements s' = tension_measurements s /\
  journal_entries s' = journal_entries s /\
  failure_entries s' = failure_entries s /\
  iterations s' = iterations s /\
  CohortMembers s' = CohortMembers s /\
  (exists cl, clauses s' = (clauses s ++ cl)%list) /\
  (exists am, amendments s' = (amendments s ++ am)%list /\
              Forall (fun a => Amendment.status a = "PENDING") am).
Proof.
  assert (same : users s = users s /\
                 cohorts s = cohorts s /\
                 tension_measurements s = tension_measurements s /\
                 journal_entries s = journal_entries s /\
                 failure_entries s = failure_entries s /\
                 iterations s = iterations s /\
                 CohortMembers s = CohortMembers s /\
                 (exists cl, clauses s = (clauses s ++ cl)%list) /\
                 (exists am, amendments s = (amendments s ++ am)%list /\
                    Forall (fun a => Amendment.status a = "PENDING") am)).
  { repeat (split; [reflexivity|]).
    split; exists []; rewrite app_nil_r; auto. }
  destruct r as [|b|id|id b|id|id b|id b]; simpl.
  - unfold GET_contracts. destruct (prisma_contract_findMany s); exact same.
  - unfold POST_contracts, prisma_contract_create.
    destruct (required (Req.pc_title b)); simpl; [|exact same].
    destruct (required (Req.pc_cohortId b)); simpl; [|exact same].
    destruct (connect Cohort.id _ (cohorts s)); simpl; [|exact same].
    destruct (fresh Contract.id _ (contracts s)); simpl; [|exact same].
    destruct (create_clauses env _ 1 _ _) as [s'|] eqn:Hc; simpl; [|exact same].
    destruct (include_contract _ _ s' _); simpl; [|exact same].
    pose proof (create_clauses_frame _ _ _ _ _ _ Hc) as Hfr.
    apply create_clauses_Ok in Hc. destruct Hc as (new & Hcl & _).
    rewrite Hfr. simpl. repeat (split; [reflexivity|]).
    split; [exists new; exact Hcl|].
    exists []. rewrite app_nil_r. auto.
  - rewrite GET_contracts_id_store. exact same.
  - unfold PUT_contracts_id, prisma_contract_update.
    destruct (connect Contract.id id (contracts s)); simpl; [|exact same].
    destruct (include_contract _ _ _ _); simpl; exact same.
  - unfold DELETE_contracts_id, prisma_contract_delete.
    rewrite sql_delete_contracts.
    destruct (negb (has_id Contract.id id (contracts s))); simpl; [exact same|].
    destruct (contract_dependents s id); simpl; exact same.
  - unfold POST_contracts_id_clauses.
    destruct (prisma_clause_create _ _ id _ env s) as [[j s']|e] eqn:Hc; simpl;
      [|exact same].
    apply prisma_clause_create_Ok in Hc.
    destruct Hc as (t & text & uid & k & u & _ & _ & _ & _ & _ & _ & Hs & _).
    rewrite Hs. simpl. repeat (split; [reflexivity|]).
    split; [eauto|]. exists []. rewrite app_nil_r. auto.
  - destruct (POST_amend_cases id b env s) as [[j [s' [Hc Hr]]]|[e [_ Hr]]];
      rewrite Hr; simpl; [|exact same].
    apply prisma_amendment_create_Ok in Hc.
    destruct Hc as (text & clauseId & userId & c & u & _ & _ & _ & _ & _ & _ & Hs & _).
    rewrite Hs. simpl. repeat (split; [reflexivity|]).
    split; [exists []; now rewrite app_nil_r|].
    eexists. split; [reflexivity|]. constructor; [reflexivity | constructor].
Qed.

(** X14: whatever requests the router serves, the tables of users,
    cohorts, memberships, tension measurements, journal entries, failure
    entries and iterations stay as they were, and the tables of clauses and
    amendments only grow at their end: no stored clause or amendment is
    edited or removed, so a clause keeps its content and an amendment its
    status; every amendment added has status PENDING. *)
Theorem router_only_appends l : forall s,
  users (serve l s) = users s /\
  cohorts (serve l s) = cohorts s /\
  tension_measurements (serve l s) = tension_measurements s /\
  journal_entries (serve l s) = journal_entries s /\
  failure_entries (serve l s) = failure_entries s /\
  iterations (serve l s) = iterations s /\
  CohortMembers (serve l s) = CohortMembers s /\
  (exists cl, clauses (serve l s) = (clauses s ++ cl)%list) /\
  (exists am, amendments (serve l s) = (amendments s ++ am)%list /\
              Forall (fun a => Amendment.status a = "PENDING") am).
Proof.
  induction l as [|[r env] l IH]; simpl; intros s.
  - repeat (split; [reflexivity|]).
    split; exists []; rewrite app_nil_r; auto.
  - destruct (IH (snd (router r env s)))
      as (H1 & H2 & H3 & H4 & H5 & H6 & H7 & [cl Hcl] & [am [Ham Hst]]).
    destruct (router_frame r env s)
      as (G1 & G2 & G3 & G4 & G5 & G6 & G7 & [cl0 Gcl] & [am0 [Gam Gst]]).
    rewrite H1, H2, H3, H4, H5, H6, H7, Hcl, Ham, Gcl, Gam.
    repeat (split; [assumption|]).
    split.
    + exists (cl0 ++ cl)%list. now rewrite app_assoc.
    + exists (am0 ++ am)%list. split; [now rewrite app_assoc|].
      apply Forall_app. auto.
Qed.
